(** * Agent Inbox Protocol: the inbox server (server.js)

    A shallow embedding of the request-validation pipeline, the task and
    receipt stores and the operator routes of [server.js], with the
    properties of the specification stated over it.

    Modelling conventions.
    - The process-wide mutable state ([rateBuckets], [seenNonces]) and the
      two directories of JSON files ([data/tasks], [data/receipts]) are the
      fields of one [State] record that every handler takes and returns.
      A directory is a finite map from the file's base name to the record
      stored in it.
    - [Date.now()] is an explicit argument [now] (epoch milliseconds);
      a handler reads the clock once.  The pruning timer of [setInterval]
      is an event of its own.
    - The wire fields that the protocol defines as strings (identifiers,
      keys, nonce, timestamp, signature, query parameters) are strings;
      an absent field ([undefined]) is [None].  Open-ended JSON payloads
      ([params], [result], ...) are values of [JsVal].
    - JavaScript and library primitives that the server calls but does not
      define ([Date], [parseInt], [JSON.stringify], SHA-256, base64,
      Ed25519) are the fields of the [Platform] class; a primitive that
      can throw returns [option], and a number that can be [NaN] is a
      [JsNum].  *)

From Stdlib Require Import ZArith Lia Ascii String.
From stdpp Require Import base option strings list gmap fin_maps pretty sorting.

Set Warnings "-register-all".
Local Open Scope Z_scope.

(** ** JSON values and JavaScript numbers *)

(** A parsed JSON payload, plus [undefined] for a field that is absent.
    Numbers are the integral ones. *)
Inductive JsVal : Type :=
| JUndefined
| JNull
| JBool (b : bool)
| JNum (n : Z)
| JStr (s : string)
| JArr (items : list JsVal)
| JObj (fields : list (string * JsVal)).

(** [truthy v] is what [if (v)] tests. *)
Definition truthy (v : JsVal) : bool :=
  match v with
  | JUndefined | JNull => false
  | JBool b => b
  | JNum n => negb (n =? 0)
  | JStr s => negb (String.eqb s "")
  | JArr _ | JObj _ => true
  end.

(** [a || b] *)
Definition js_or (a b : JsVal) : JsVal := if truthy a then a else b.

(** A string-typed field that may be absent: [if (f)] holds for a
    non-empty string only. *)
Definition present (f : option string) : bool :=
  match f with
  | Some s => negb (String.eqb s "")
  | None => false
  end.

(** The string a field holds; used once the field is known to be
    [present]. *)
Definition str (f : option string) : string := default "" f.

(** A JavaScript number that is an integer or [NaN]. *)
Inductive JsNum : Type :=
| Num (z : Z)
| NaN.

Definition js_sub (a b : JsNum) : JsNum :=
  match a, b with
  | Num x, Num y => Num (x - y)
  | _, _ => NaN
  end.

Definition Math_abs (a : JsNum) : JsNum :=
  match a with
  | Num x => Num (Z.abs x)
  | NaN => NaN
  end.

(** [a > b]: every comparison with [NaN] is false. *)
Definition js_gt (a b : JsNum) : bool :=
  match a, b with
  | Num x, Num y => y <? x
  | _, _ => false
  end.

Definition bytes : Type := list Byte.byte.

(** [new TextEncoder().encode(s)]: strings are kept in UTF-8. *)
Definition TextEncoder_encode (s : string) : bytes := list_byte_of_string s.

(** ** Primitives of the platform *)

Class Platform : Type := {
  (** [new Date(s).getTime()] *)
  Date_getTime : string -> JsNum;
  (** [new Date(now).toISOString()] *)
  Date_toISOString : Z -> string;
  (** [parseInt(s)] *)
  parseInt : string -> JsNum;
  (** [JSON.stringify(v)] *)
  JSON_stringify : JsVal -> string;
  (** [crypto.createHash('sha256').update(s).digest('hex')] *)
  sha256_hex : string -> string;
  (** tweetnacl-util; [None] when [decodeBase64] throws *)
  decodeBase64 : string -> option bytes;
  encodeBase64 : bytes -> string;
  (** [nacl.sign.detached(msg, secretKey)]; [None] when it throws *)
  nacl_sign_detached : bytes -> bytes -> option bytes;
  (** [nacl.sign.detached.verify(msg, sig, publicKey)]; [None] when it
      throws (wrong signature or key size) *)
  nacl_sign_detached_verify : bytes -> bytes -> bytes -> option bool
}.

(** ** Configuration *)

Definition RATE_WINDOW_MS : Z := 60000.
Definition RATE_MAX_REQUESTS : nat := 10.
Definition NONCE_EXPIRY_MS : Z := 300000.

(** [agent-keys.json] *)
Record AgentKeys : Type := {
  publicKey : string;
  secretKey : string
}.

(** The part of [manifest.json] the routes read: the [type] of each entry
    of [capabilities]. *)
Record Manifest : Type := {
  capabilities : list string
}.

(** The capability list of [buildDefaultManifest]. *)
Definition default_capabilities : list string :=
  [ "research.security"; "research.web"; "code.review"; "code.generate";
    "writing.technical"; "writing.creative"; "data.analysis";
    "orchestration.delegate" ].

(** ** Records *)

Inductive Status : Type :=
| pending
| completed
| rejected.

Global Instance Status_eq_dec : EqDecision Status.
Proof. solve_decision. Defined.

Definition status_str (s : Status) : string :=
  match s with
  | pending => "pending"
  | completed => "completed"
  | rejected => "rejected"
  end.

(** The signed part of a receipt ([receiptData]). *)
Record ReceiptData : Type := {
  r_task_id : string;
  r_requester_id : string;
  r_agent_id : string;
  r_task_type : string;
  r_completion_timestamp : string;
  r_result_hash : string;
  r_payment_proof : JsVal
}.

(** [{ ...receiptData, agent_signature }] *)
Record Receipt : Type := {
  r_data : ReceiptData;
  r_agent_signature : string
}.

Record Task : Type := {
  t_task_id : string;
  t_requester_id : string;
  t_task_type : string;
  t_description : string;
  t_params : JsVal;
  t_payment_offer : JsVal;
  t_callback_url : JsVal;
  t_deadline : JsVal;
  t_nonce : string;
  t_timestamp : string;
  t_status : Status;
  t_created : string;
  t_updated : string;
  t_result : JsVal;
  t_receipt : option Receipt;
  t_rejection_reason : JsVal
}.

(** The server's state: two in-memory maps and two directories. *)
Record State : Type := {
  rateBuckets : gmap string (list Z);
  seenNonces : gmap string Z;
  tasks : gmap string Task;
  receipts : gmap string Receipt
}.

(** ** Requests and responses *)

(** Body of [POST /inbox]. *)
Record InboxBody : Type := {
  task_id : option string;
  requester_id : option string;
  task_type : option string;
  description : option string;
  params : JsVal;
  payment_offer : JsVal;
  callback_url : JsVal;
  deadline : JsVal;
  nonce : option string;
  timestamp : option string;
  signature : option string
}.

(** The row of a task in the list view of [GET /tasks]. *)
Record TaskRow : Type := {
  row_task_id : string;
  row_requester_id : string;
  row_task_type : string;
  row_description : string;
  row_status : Status;
  row_created : string;
  row_updated : string
}.

(** The JSON bodies of the answers, without their human-readable
    [message]; [BUncaught] is the answer to an exception that leaves a
    handler. *)
Inductive Body : Type :=
| BError (error : string) (supported : option (list string))
| BAccepted (status : string) (id : string) (status_url : string)
| BStatus (id : string) (status : Status) (type created updated : string)
    (result : JsVal) (receipt : option Receipt)
| BCompleted (id : string) (receipt : Receipt)
| BRejected (id : string) (reason : JsVal)
| BReceipts (agent_id : string) (total : nat) (items : list Receipt)
| BTasks (total : nat) (items : list TaskRow)
| BUncaught.

Record Response : Type := {
  code : Z;
  body : Body
}.

Definition reply (c : Z) (b : Body) : Response := {| code := c; body := b |}.

(** ** Field updates of the state *)

Definition set_rateBuckets (rb : gmap string (list Z)) (st : State) : State :=
  {| rateBuckets := rb; seenNonces := seenNonces st;
     tasks := tasks st; receipts := receipts st |}.

Definition set_seenNonces (sn : gmap string Z) (st : State) : State :=
  {| rateBuckets := rateBuckets st; seenNonces := sn;
     tasks := tasks st; receipts := receipts st |}.

Definition set_tasks (ts : gmap string Task) (st : State) : State :=
  {| rateBuckets := rateBuckets st; seenNonces := seenNonces st;
     tasks := ts; receipts := receipts st |}.

Definition set_receipts (rs : gmap string Receipt) (st : State) : State :=
  {| rateBuckets := rateBuckets st; seenNonces := seenNonces st;
     tasks := tasks st; receipts := rs |}.

(** ** Array helpers *)

(** [l.slice(0, e)]: a [NaN] end is 0, a negative end counts from the
    back. *)
Definition slice0 {A : Type} (l : list A) (e : JsNum) : list A :=
  match e with
  | NaN => take 0 l
  | Num n =>
      if n <? 0 then take (Z.to_nat (Z.max (Z.of_nat (length l) + n) 0)) l
      else take (Z.to_nat n) l
  end.

(** [l.sort(cmp)]: the sort is stable; [x] stays in front of [y] unless
    [cmp(x, y) > 0]. *)
Fixpoint sort_insert {A : Type} (cmp : A -> A -> JsNum) (x : A) (l : list A)
  : list A :=
  match l with
  | [] => [x]
  | y :: l' =>
      if js_gt (cmp x y) (Num 0) then y :: sort_insert cmp x l'
      else x :: y :: l'
  end.

Definition js_sort {A : Type} (cmp : A -> A -> JsNum) (l : list A) : list A :=
  foldr (sort_insert cmp) [] l.

(** ** The server *)

Section Server.
Context `{Platform}.
Variable agentKeys : AgentKeys.
Variable manifest : Manifest.

(** *** Helpers *)

(** The [try] block ends in [false] as soon as one call throws. *)
Definition verifySignature (message : JsVal) (signature publicKey : string)
  : bool :=
  let msgBytes := TextEncoder_encode (JSON_stringify message) in
  match decodeBase64 signature with
  | None => false
  | Some sigBytes =>
      match decodeBase64 publicKey with
      | None => false
      | Some pubBytes =>
          match nacl_sign_detached_verify msgBytes sigBytes pubBytes with
          | Some ok => ok
          | None => false
          end
      end
  end.

(** No [try] here: [None] is an exception that leaves the handler. *)
Definition signMessage (message : JsVal) : option string :=
  let msgBytes := TextEncoder_encode (JSON_stringify message) in
  match decodeBase64 (secretKey agentKeys) with
  | None => None
  | Some sk =>
      match nacl_sign_detached msgBytes sk with
      | None => None
      | Some sig => Some (encodeBase64 sig)
      end
  end.

Definition in_window (now : Z) (ts : Z) : bool := now - ts <? RATE_WINDOW_MS.

Definition checkRateLimit (rb : gmap string (list Z)) (requesterId : string)
    (now : Z) : bool * gmap string (list Z) :=
  let rb1 :=
    match rb !! requesterId with
    | None => <[requesterId := []]> rb
    | Some _ => rb
    end in
  let bucket := filter (fun ts => in_window now ts = true)
                  (default [] (rb1 !! requesterId)) in
  if decide (RATE_MAX_REQUESTS <= length bucket)%nat then (false, rb1)
  else (true, <[requesterId := bucket ++ [now]]> rb1).

Definition checkNonce (sn : gmap string Z) (nonce timestamp : string)
    (now : Z) : bool * gmap string Z :=
  let ts := Date_getTime timestamp in
  if js_gt (Math_abs (js_sub (Num now) ts)) (Num NONCE_EXPIRY_MS)
  then (false, sn)
  else
    match sn !! nonce with
    | Some _ => (false, sn)
    | None => (true, <[nonce := now]> sn)
    end.

Definition loadTask (st : State) (taskId : string) : option Task :=
  tasks st !! taskId.

Definition saveTask (task : Task) (st : State) : State :=
  set_tasks (<[t_task_id task := task]> (tasks st)) st.

Definition saveReceipt (receipt : Receipt) (st : State) : State :=
  set_receipts (<[r_task_id (r_data receipt) := receipt]> (receipts st)) st.

(** The timer of [setInterval]: drop the nonces first seen more than
    twice the expiry ago (the survivors are then written to disk). *)
Definition pruneNonces (st : State) (now : Z) : State :=
  set_seenNonces
    (filter (fun kv : string * Z => ~ (NONCE_EXPIRY_MS * 2 < now - kv.2))
       (seenNonces st)) st.

(** *** POST /inbox *)

(** The object the requester signed. *)
Definition messageToVerify (b : InboxBody) : JsVal :=
  JObj [ ("task_id", JStr (str (task_id b)));
         ("requester_id", JStr (str (requester_id b)));
         ("task_type", JStr (str (task_type b)));
         ("description", JStr (str (description b)));
         ("params", params b);
         ("payment_offer", payment_offer b);
         ("callback_url", callback_url b);
         ("deadline", deadline b);
         ("nonce", JStr (str (nonce b)));
         ("timestamp", JStr (str (timestamp b))) ].

Definition has_required_fields (b : InboxBody) : bool :=
  present (task_id b) && present (requester_id b) && present (task_type b)
  && present (description b) && present (nonce b) && present (timestamp b)
  && present (signature b).

Definition new_task (b : InboxBody) (now : Z) : Task :=
  {| t_task_id := str (task_id b);
     t_requester_id := str (requester_id b);
     t_task_type := str (task_type b);
     t_description := str (description b);
     t_params := js_or (params b) JNull;
     t_payment_offer := js_or (payment_offer b) JNull;
     t_callback_url := js_or (callback_url b) JNull;
     t_deadline := js_or (deadline b) JNull;
     t_nonce := str (nonce b);
     t_timestamp := str (timestamp b);
     t_status := pending;
     t_created := Date_toISOString now;
     t_updated := Date_toISOString now;
     t_result := JNull;
     t_receipt := None;
     t_rejection_reason := JUndefined |}.

Definition post_inbox (st : State) (now : Z) (b : InboxBody)
  : Response * State :=
  if negb (has_required_fields b)
  then (reply 400 (BError "missing_fields" None), st)
  else
    let (allowed, rb) :=
      checkRateLimit (rateBuckets st) (str (requester_id b)) now in
    let st1 := set_rateBuckets rb st in
    if negb allowed
    then (reply 429 (BError "rate_limited" None), st1)
    else
      let (fresh, sn) :=
        checkNonce (seenNonces st1) (str (nonce b))
          (str (timestamp b)) now in
      let st2 := set_seenNonces sn st1 in
      if negb fresh
      then (reply 400 (BError "invalid_nonce" None), st2)
      else if negb (verifySignature (messageToVerify b)
                      (str (signature b))
                      (str (requester_id b)))
      then (reply 401 (BError "invalid_signature" None), st2)
      else
        let hasCapability :=
          existsb (fun c => String.eqb c (str (task_type b)))
            (capabilities manifest) in
        if negb hasCapability
        then (reply 404 (BError "capability_not_found"
                           (Some (capabilities manifest))), st2)
        else
          let task := new_task b now in
          (reply 201 (BAccepted "accepted" (t_task_id task)
                        ("/tasks/" ++ t_task_id task ++ "/status")),
           saveTask task st2).

(** *** GET /tasks/:id/status *)

Definition get_task_status (st : State) (id : string) : Response :=
  match loadTask st id with
  | None => reply 404 (BError "not_found" None)
  | Some task =>
      reply 200
        (BStatus (t_task_id task) (t_status task) (t_task_type task)
           (t_created task) (t_updated task)
           (if decide (t_status task = completed) then t_result task
            else JNull)
           (t_receipt task))
  end.

(** *** POST /tasks/:id/complete *)

(** [receiptData] as the object handed to [signMessage]. *)
Definition receiptData_obj (d : ReceiptData) : JsVal :=
  JObj [ ("task_id", JStr (r_task_id d));
         ("requester_id", JStr (r_requester_id d));
         ("agent_id", JStr (r_agent_id d));
         ("task_type", JStr (r_task_type d));
         ("completion_timestamp", JStr (r_completion_timestamp d));
         ("result_hash", JStr (r_result_hash d));
         ("payment_proof", r_payment_proof d) ].

Definition complete_task (task : Task) (result : JsVal) (receipt : Receipt)
    (now : Z) : Task :=
  {| t_task_id := t_task_id task;
     t_requester_id := t_requester_id task;
     t_task_type := t_task_type task;
     t_description := t_description task;
     t_params := t_params task;
     t_payment_offer := t_payment_offer task;
     t_callback_url := t_callback_url task;
     t_deadline := t_deadline task;
     t_nonce := t_nonce task;
     t_timestamp := t_timestamp task;
     t_status := completed;
     t_created := t_created task;
     t_updated := Date_toISOString now;
     t_result := result;
     t_receipt := Some receipt;
     t_rejection_reason := t_rejection_reason task |}.

Definition post_task_complete (st : State) (now : Z) (id : string)
    (result payment_proof : JsVal) : Response * State :=
  match loadTask st id with
  | None => (reply 404 (BError "not_found" None), st)
  | Some task =>
      if negb (truthy result)
      then (reply 400 (BError "missing_result" None), st)
      else
        let resultHash := sha256_hex (JSON_stringify result) in
        let receiptData :=
          {| r_task_id := t_task_id task;
             r_requester_id := t_requester_id task;
             r_agent_id := publicKey agentKeys;
             r_task_type := t_task_type task;
             r_completion_timestamp := Date_toISOString now;
             r_result_hash := resultHash;
             r_payment_proof := js_or payment_proof JNull |} in
        match signMessage (receiptData_obj receiptData) with
        | None => (reply 500 BUncaught, st)
        | Some sig =>
            let receipt :=
              {| r_data := receiptData; r_agent_signature := sig |} in
            let task' := complete_task task result receipt now in
            (reply 200 (BCompleted (t_task_id task') receipt),
             saveReceipt receipt (saveTask task' st))
        end
  end.

(** *** POST /tasks/:id/reject *)

Definition reject_task (task : Task) (reason : JsVal) (now : Z) : Task :=
  {| t_task_id := t_task_id task;
     t_requester_id := t_requester_id task;
     t_task_type := t_task_type task;
     t_description := t_description task;
     t_params := t_params task;
     t_payment_offer := t_payment_offer task;
     t_callback_url := t_callback_url task;
     t_deadline := t_deadline task;
     t_nonce := t_nonce task;
     t_timestamp := t_timestamp task;
     t_status := rejected;
     t_created := t_created task;
     t_updated := Date_toISOString now;
     t_result := t_result task;
     t_receipt := t_receipt task;
     t_rejection_reason := js_or reason (JStr "No reason given") |}.

Definition post_task_reject (st : State) (now : Z) (id : string)
    (reason : JsVal) : Response * State :=
  match loadTask st id with
  | None => (reply 404 (BError "not_found" None), st)
  | Some task =>
      let task' := reject_task task reason now in
      (reply 200 (BRejected (t_task_id task') (t_rejection_reason task')),
       saveTask task' st)
  end.

(** *** GET /receipts *)

(** [(a, b) => new Date(b) - new Date(a)] on two date strings *)
Definition newest_first (a b : string) : JsNum :=
  js_sub (Date_getTime b) (Date_getTime a).

Definition get_receipts (st : State) (agent_id type limit : option string)
  : Response :=
  let receipts0 := (map_to_list (receipts st)).*2 in
  let receipts1 :=
    if present agent_id
    then filter (fun r => r_agent_id (r_data r) = str agent_id)
           receipts0
    else receipts0 in
  let receipts2 :=
    if present type
    then filter (fun r => r_task_type (r_data r) = str type)
           receipts1
    else receipts1 in
  let receipts3 :=
    js_sort (fun a b => newest_first (r_completion_timestamp (r_data a))
                          (r_completion_timestamp (r_data b)))
      receipts2 in
  let receipts4 :=
    if present limit
    then slice0 receipts3 (parseInt (str limit))
    else receipts3 in
  reply 200 (BReceipts (publicKey agentKeys) (length receipts4) receipts4).

(** *** GET /tasks *)

(** The list view keeps the first 200 characters of the description and
    leaves the result out. *)
Definition task_row (t : Task) : TaskRow :=
  {| row_task_id := t_task_id t;
     row_requester_id := t_requester_id t;
     row_task_type := t_task_type t;
     row_description := substring 0 200 (t_description t);
     row_status := t_status t;
     row_created := t_created t;
     row_updated := t_updated t |}.

Definition get_tasks (st : State) (status limit : option string)
  : Response :=
  let tasks0 := task_row <$> (map_to_list (tasks st)).*2 in
  let tasks1 :=
    if present status
    then filter (fun t => status_str (row_status t) = str status)
           tasks0
    else tasks0 in
  let tasks2 :=
    js_sort (fun a b => newest_first (row_created a) (row_created b))
      tasks1 in
  let tasks3 :=
    if present limit
    then slice0 tasks2 (parseInt (str limit))
    else tasks2 in
  reply 200 (BTasks (length tasks3) tasks3).

(** *** The server as a transition system *)

(** What can happen to a running server: one of the routes is called,
    or the pruning timer fires. *)
Inductive Event : Type :=
| PostInbox (b : InboxBody)
| GetTaskStatus (id : string)
| PostTaskComplete (id : string) (result payment_proof : JsVal)
| PostTaskReject (id : string) (reason : JsVal)
| GetReceipts (agent_id type limit : option string)
| GetTasks (status limit : option string)
| PruneTimer.

(** One event at clock reading [now]; the timer answers nothing. *)
Definition handle (st : State) (now : Z) (e : Event)
  : option Response * State :=
  match e with
  | PostInbox b =>
      let (r, st') := post_inbox st now b in (Some r, st')
  | GetTaskStatus id => (Some (get_task_status st id), st)
  | PostTaskComplete id result proof =>
      let (r, st') := post_task_complete st now id result proof in
      (Some r, st')
  | PostTaskReject id reason =>
      let (r, st') := post_task_reject st now id reason in (Some r, st')
  | GetReceipts a t l => (Some (get_receipts st a t l), st)
  | GetTasks s l => (Some (get_tasks st s l), st)
  | PruneTimer => (None, pruneNonces st now)
  end.

(** The state after a sequence of timed events. *)
Fixpoint run (st : State) (evs : list (Z * Event)) : State :=
  match evs with
  | [] => st
  | (now, e) :: evs' => run (handle st now e).2 evs'
  end.
End Server.

(** ** A concrete platform

    Executable stand-ins for the primitives, used to run the server on
    concrete requests: ISO-8601 dates in the form [toISOString] prints,
    [parseInt] on ASCII input, a small JSON printer, and toy replacements
    for the hash, the base64 codec (base16 here) and the signature scheme
    (the signature of [m] under key [k] is [k ++ m], and the public key is
    the secret key). *)
Module Sample.

(** *** Dates *)

Definition days_from_civil (y m d : Z) : Z :=
  let y := if m <=? 2 then y - 1 else y in
  let era := y / 400 in
  let yoe := y - era * 400 in
  let doy := (153 * (if 2 <? m then m - 3 else m + 9) + 2) / 5 + d - 1 in
  let doe := yoe * 365 + yoe / 4 - yoe / 100 + doy in
  era * 146097 + doe - 719468.

Definition civil_from_days (z : Z) : Z * Z * Z :=
  let z := z + 719468 in
  let era := z / 146097 in
  let doe := z - era * 146097 in
  let yoe := (doe - doe / 1460 + doe / 36524 - doe / 146096) / 365 in
  let doy := doe - (365 * yoe + yoe / 4 - yoe / 100) in
  let mp := (5 * doy + 2) / 153 in
  let d := doy - (153 * mp + 2) / 5 + 1 in
  let m := if mp <? 10 then mp + 3 else mp - 9 in
  ((if m <=? 2 then yoe + era * 400 + 1 else yoe + era * 400), m, d).

(** [n] in decimal on [width] digits. *)
Fixpoint digits (width : nat) (n : Z) : string :=
  match width with
  | O => ""
  | S w =>
      digits w (n / 10)
      ++ String (ascii_of_nat (48 + Z.to_nat (n mod 10))) ""
  end.

Definition toISOString (now : Z) : string :=
  let '(y, m, d) := civil_from_days (now / 86400000) in
  let ms := now mod 86400000 in
  digits 4 y ++ "-" ++ digits 2 m ++ "-" ++ digits 2 d ++ "T"
  ++ digits 2 (ms / 3600000) ++ ":" ++ digits 2 (ms / 60000 mod 60) ++ ":"
  ++ digits 2 (ms / 1000 mod 60) ++ "." ++ digits 3 (ms mod 1000) ++ "Z".

Definition digit_of (c : ascii) : option Z :=
  let n := Z.of_nat (nat_of_ascii c) in
  if (48 <=? n) && (n <=? 57) then Some (n - 48) else None.

(** The value of a string of decimal digits. *)
Fixpoint decimal (s : string) (acc : Z) : option Z :=
  match s with
  | EmptyString => Some acc
  | String c s' =>
      match digit_of c with
      | Some d => decimal s' (10 * acc + d)
      | None => None
      end
  end.

Definition field (s : string) (pos len : nat) : option Z :=
  let f := substring pos len s in
  if decide (String.length f = len) then decimal f 0 else None.

(** [YYYY-MM-DDTHH:mm:ssZ] and [YYYY-MM-DDTHH:mm:ss.sssZ]; anything else
    is an invalid date. *)
Definition getTime (s : string) : JsNum :=
  let n := String.length s in
  let seps :=
    String.eqb (substring 4 1 s) "-" && String.eqb (substring 7 1 s) "-"
    && String.eqb (substring 10 1 s) "T" && String.eqb (substring 13 1 s) ":"
    && String.eqb (substring 16 1 s) ":"
    && ((Nat.eqb n 20 && String.eqb (substring 19 1 s) "Z")
        || (Nat.eqb n 24 && String.eqb (substring 19 1 s) "."
            && String.eqb (substring 23 1 s) "Z")) in
  let ms := if Nat.eqb n 24 then field s 20 3 else Some 0 in
  match field s 0 4, field s 5 2, field s 8 2,
        field s 11 2, field s 14 2, field s 17 2, ms with
  | Some y, Some m, Some d, Some hh, Some mm, Some ss, Some ms =>
      let days := days_from_civil y m d in
      if seps && (1 <=? m) && (m <=? 12) && (1 <=? d)
         && bool_decide (civil_from_days days = (y, m, d))
         && (hh <=? 23) && (mm <=? 59) && (ss <=? 59)
      then Num (days * 86400000 + hh * 3600000 + mm * 60000 + ss * 1000 + ms)
      else NaN
  | _, _, _, _, _, _, _ => NaN
  end.

(** *** parseInt *)

Definition is_space (c : ascii) : bool :=
  let n := nat_of_ascii c in
  (Nat.leb 9 n && Nat.leb n 13) || Nat.eqb n 32.

Fixpoint skip_spaces (s : string) : string :=
  match s with
  | String c s' => if is_space c then skip_spaces s' else s
  | EmptyString => s
  end.

Definition digit_in (radix : Z) (c : ascii) : option Z :=
  let n := Z.of_nat (nat_of_ascii c) in
  let v := if (48 <=? n) && (n <=? 57) then n - 48
           else if (97 <=? n) && (n <=? 122) then n - 87
           else if (65 <=? n) && (n <=? 90) then n - 55
           else 36 in
  if v <? radix then Some v else None.

(** The number written by the longest prefix of digits, [None] when
    there is no digit. *)
Fixpoint leading_number (radix : Z) (s : string) (acc : option Z)
  : option Z :=
  match s with
  | EmptyString => acc
  | String c s' =>
      match digit_in radix c with
      | Some d => leading_number radix s' (Some (radix * default 0 acc + d))
      | None => acc
      end
  end.

Definition parse_int (s : string) : JsNum :=
  let s := skip_spaces s in
  let (neg, s) :=
    match s with
    | String "-" s' => (true, s')
    | String "+" s' => (false, s')
    | _ => (false, s)
    end in
  let (radix, s) :=
    match s with
    | String "0" (String "x" s') | String "0" (String "X" s') => (16, s')
    | _ => (10, s)
    end in
  match leading_number radix s None with
  | Some n => Num (if neg : bool then - n else n)
  | None => NaN
  end.

(** *** JSON.stringify *)

Definition dquote : string := String "034"%char "".

Fixpoint escape (s : string) : string :=
  match s with
  | EmptyString => ""
  | String c s' =>
      (if Ascii.eqb c "034"%char || Ascii.eqb c "\"%char
       then String "\"%char (String c "") else String c "")
      ++ escape s'
  end.

Definition quote (s : string) : string := dquote ++ escape s ++ dquote.

Definition join (sep : string) (l : list string) : string :=
  match l with
  | [] => ""
  | x :: l' => foldl (fun acc y : string => (acc ++ sep ++ y)%string) x l'
  end.

(** An [undefined] member of an object is left out, an [undefined]
    element of an array is printed as [null]. *)
Fixpoint stringify (v : JsVal) : string :=
  match v with
  | JUndefined | JNull => "null"
  | JBool b => if b then "true" else "false"
  | JNum n => pretty n
  | JStr s => quote s
  | JArr items => ("[" ++ join "," (map stringify items) ++ "]")%string
  | JObj fields =>
      ("{" ++ join ","
                (omap id
                   (map (fun kv : string * JsVal =>
                           let (k, x) := kv in
                           match x with
                           | JUndefined => None
                           | _ => Some (quote k ++ ":" ++ stringify x)%string
                           end)
                      fields))
       ++ "}")%string
  end.

(** *** Toy hash, codec and signatures *)

Definition hex_char (n : N) : ascii :=
  ascii_of_N (if (n <? 10)%N then 48 + n else 87 + n)%N.

Definition hex_value (c : ascii) : option N :=
  let n := N_of_ascii c in
  if ((48 <=? n) && (n <=? 57))%N then Some (n - 48)%N
  else if ((97 <=? n) && (n <=? 102))%N then Some (n - 87)%N
  else None.

Fixpoint hex (width : nat) (n : N) : string :=
  match width with
  | O => ""
  | S w => hex w (n / 16)%N ++ String (hex_char (n mod 16)%N) ""
  end.

(** A 32-bit checksum printed in hexadecimal, in the place of SHA-256. *)
Definition digest (s : string) : string :=
  hex 8 (foldl (fun h b => ((h * 31 + Byte.to_N b) mod 4294967296)%N) 7%N
           (list_byte_of_string s)).

(** Base16 in the place of base64. *)
Fixpoint encode (b : bytes) : string :=
  match b with
  | [] => ""
  | x :: b' =>
      String (hex_char (Byte.to_N x / 16)%N)
        (String (hex_char (Byte.to_N x mod 16)%N) (encode b'))
  end.

Fixpoint decode (s : string) : option bytes :=
  match s with
  | EmptyString => Some []
  | String h (String l s') =>
      match hex_value h, hex_value l, decode s' with
      | Some x, Some y, Some r =>
          match Byte.of_N (16 * x + y)%N with
          | Some b => Some (b :: r)
          | None => None
          end
      | _, _, _ => None
      end
  | String _ EmptyString => None
  end.

Definition bytes_eqb (a b : bytes) : bool :=
  bool_decide (Byte.to_N <$> a = Byte.to_N <$> b).

Definition sign (msg sk : bytes) : option bytes :=
  match sk with
  | [] => None
  | _ => Some (sk ++ msg)
  end.

Definition verify (msg sig pk : bytes) : option bool :=
  match pk with
  | [] => None
  | _ => Some (bytes_eqb sig (pk ++ msg))
  end.

Definition platform : Platform :=
  {| Date_getTime := getTime;
     Date_toISOString := toISOString;
     parseInt := parse_int;
     JSON_stringify := stringify;
     sha256_hex := digest;
     decodeBase64 := decode;
     encodeBase64 := encode;
     nacl_sign_detached := sign;
     nacl_sign_detached_verify := verify |}.

(** *** A server and a requester *)

Definition agentKeys : AgentKeys :=
  {| publicKey := "a1b2c3d4"; secretKey := "a1b2c3d4" |}.

Definition manifest : Manifest := {| capabilities := default_capabilities |}.

Definition requesterKey : string := "0badcafe".

(** What [sendTask] of client.js does with a message: sign its JSON
    form with the requester's secret key and attach the signature. *)
Definition signed (b : InboxBody) (secret : string) : InboxBody :=
  {| task_id := task_id b; requester_id := requester_id b;
     task_type := task_type b; description := description b;
     params := params b; payment_offer := payment_offer b;
     callback_url := callback_url b; deadline := deadline b;
     nonce := nonce b; timestamp := timestamp b;
     signature :=
       match decode secret with
       | Some sk =>
           encode <$> sign (TextEncoder_encode
                              (stringify (messageToVerify b))) sk
       | None => None
       end |}.

(** The request of the end-to-end scenario: a [research.web] task with
    description [x], made at [T0]. *)
Definition T0 : Z := 1771200000000.

Definition request (id n : string) (at_ : Z) : InboxBody :=
  signed
    {| task_id := Some id; requester_id := Some requesterKey;
       task_type := Some "research.web"; description := Some "x";
       params := JNull;
       payment_offer :=
         JObj [("amount", JNum 1000); ("currency", JStr "sats");
               ("type", JStr "lightning")];
       callback_url := JNull; deadline := JNull;
       nonce := Some n; timestamp := Some (toISOString at_);
       signature := None |}
    requesterKey.

Definition empty_state : State :=
  {| rateBuckets := ∅; seenNonces := ∅; tasks := ∅; receipts := ∅ |}.
End Sample.

(** ** Vocabulary of the properties *)

(** The timestamps of [requester]'s bucket that are still inside the
    rate window at [now], and how many they are. *)
Definition recent (st : State) (requester : string) (now : Z) : list Z :=
  filter (fun ts => in_window now ts = true)
    (default [] (rateBuckets st !! requester)).

Definition counted (st : State) (requester : string) (now : Z) : nat :=
  length (recent st requester now).

(** The machine-readable kind of an error answer. *)
Definition error_kind (r : Response) : option string :=
  match body r with
  | BError e _ => Some e
  | _ => None
  end.

(** Every task file holds the task it is named after. *)
Definition store_keyed (st : State) : Prop :=
  forall k t, tasks st !! k = Some t -> t_task_id t = k.

(** No bucket is longer than the configured maximum. *)
Definition buckets_bounded (st : State) : Prop :=
  forall r b, rateBuckets st !! r = Some b ->
    (length b <= RATE_MAX_REQUESTS)%nat.

(** The state [post_inbox] leaves once the rate limiter has counted the
    request, and once the nonce tracker has recorded it as well. *)
Definition counted_state (st : State) (b : InboxBody) (now : Z) : State :=
  let rid := str (requester_id b) in
  set_rateBuckets (<[rid := recent st rid now ++ [now]]> (rateBuckets st)) st.

Definition recorded_state (st : State) (b : InboxBody) (now : Z) : State :=
  let st1 := counted_state st b now in
  set_seenNonces (<[str (nonce b) := now]> (seenNonces st1)) st1.

(** The exits of [post_inbox], in the order the route takes them: the
    answer, the state left behind, and what was found on the way. *)
Section Outcomes.
Context `{Platform}.
Variable manifest : Manifest.

Definition limiter_passes (st : State) (now : Z) (b : InboxBody) : Prop :=
  has_required_fields b = true
  /\ (counted st (str (requester_id b)) now < RATE_MAX_REQUESTS)%nat.

Definition signature_ok (b : InboxBody) : bool :=
  verifySignature (messageToVerify b) (str (signature b))
    (str (requester_id b)).

Inductive inbox_outcome (st : State) (now : Z) (b : InboxBody)
  : Response -> State -> Prop :=
| out_missing_fields :
    has_required_fields b = false ->
    inbox_outcome st now b (reply 400 (BError "missing_fields" None)) st
| out_rate_limited :
    has_required_fields b = true ->
    (RATE_MAX_REQUESTS <= counted st (str (requester_id b)) now)%nat ->
    inbox_outcome st now b (reply 429 (BError "rate_limited" None)) st
| out_invalid_nonce :
    limiter_passes st now b ->
    checkNonce (seenNonces st) (str (nonce b)) (str (timestamp b)) now
      = (false, seenNonces st) ->
    inbox_outcome st now b (reply 400 (BError "invalid_nonce" None))
      (counted_state st b now)
| out_invalid_signature :
    limiter_passes st now b ->
    seenNonces st !! str (nonce b) = None ->
    signature_ok b = false ->
    inbox_outcome st now b (reply 401 (BError "invalid_signature" None))
      (recorded_state st b now)
| out_capability_not_found :
    limiter_passes st now b ->
    seenNonces st !! str (nonce b) = None ->
    signature_ok b = true ->
    str (task_type b) ∉ capabilities manifest ->
    inbox_outcome st now b
      (reply 404 (BError "capability_not_found"
                    (Some (capabilities manifest))))
      (recorded_state st b now)
| out_accepted :
    limiter_passes st now b ->
    seenNonces st !! str (nonce b) = None ->
    signature_ok b = true ->
    str (task_type b) ∈ capabilities manifest ->
    inbox_outcome st now b
      (reply 201 (BAccepted "accepted" (str (task_id b))
                    ("/tasks/" ++ str (task_id b) ++ "/status")))
      (saveTask (new_task b now) (recorded_state st b now)).

Variable agentKeys : AgentKeys.

(** Whether event [e], arriving at [t] in state [st], is a request of
    [requester] that the rate limiter counts. *)
Definition is_counted (st : State) (t : Z) (e : Event) (requester : string)
  : bool :=
  match e with
  | PostInbox b =>
      has_required_fields b
      && bool_decide (str (requester_id b) = requester)
      && bool_decide (counted st requester t < RATE_MAX_REQUESTS)%nat
  | _ => false
  end.

(** How many requests of [requester] the limiter counts along a trace
    at times that are still inside the rate window at [now]. *)
Fixpoint counted_in_trace (st : State) (evs : list (Z * Event))
    (requester : string) (now : Z) : nat :=
  match evs with
  | [] => O
  | (t, e) :: evs' =>
      ((if is_counted st t e requester && in_window now t then 1 else 0)
       + counted_in_trace (handle agentKeys manifest st t e).2 evs'
           requester now)%nat
  end.

(** The clock readings of a trace never exceed [now]. *)
Definition not_after (now : Z) (evs : list (Z * Event)) : Prop :=
  Forall (fun ev : Z * Event => ev.1 <= now) evs.
End Outcomes.

(** ** Scenarios

    The server of [Sample] run on concrete requests. *)
Module Scenario.
Import Sample.

Definition submit : State -> Z -> InboxBody -> Response * State :=
  post_inbox (H := platform) manifest.

Definition serve : State -> list (Z * Event) -> State :=
  run (H := platform) agentKeys manifest.

Definition status_of (r : Response) : option Status :=
  match body r with
  | BStatus _ s _ _ _ _ _ => Some s
  | _ => None
  end.

Definition receipt_of (r : Response) : option Receipt :=
  match body r with
  | BStatus _ _ _ _ _ _ receipt => receipt
  | _ => None
  end.

Definition total_of (r : Response) : option nat :=
  match body r with
  | BTasks n _ | BReceipts _ n _ => Some n
  | _ => None
  end.

(** The end-to-end scenario of the specification: task [t1] is submitted
    at [T0] with nonce [n1], then completed five seconds later. *)
Definition finding : JsVal := JObj [("finding", JStr "none")].

Definition accepted_state : State :=
  serve empty_state [(T0, PostInbox (request "t1" "n1" T0))].

Definition completed_state : State :=
  serve accepted_state
    [(T0 + 5000, PostTaskComplete "t1" finding JUndefined)].


(** Ten requests of one requester, one millisecond apart. *)
Definition burst : list (Z * Event) :=
  (fun i : Z =>
     (T0 + i, PostInbox (request ("t" ++ pretty i) ("n" ++ pretty i) (T0 + i))))
  <$> seqZ 0 10.

Definition busy_state : State := serve empty_state burst.

(** A request whose signature is not the requester's. *)
Definition forged (id n : string) (at_ : Z) : InboxBody :=
  let b := request id n at_ in
  {| task_id := task_id b; requester_id := requester_id b;
     task_type := task_type b; description := description b;
     params := params b; payment_offer := payment_offer b;
     callback_url := callback_url b; deadline := deadline b;
     nonce := nonce b; timestamp := timestamp b;
     signature := Some "AAAA" |}.

(** A request without a description. *)
Definition incomplete (id n : string) (at_ : Z) : InboxBody :=
  let b := request id n at_ in
  {| task_id := task_id b; requester_id := requester_id b;
     task_type := task_type b; description := None;
     params := params b; payment_offer := payment_offer b;
     callback_url := callback_url b; deadline := deadline b;
     nonce := nonce b; timestamp := timestamp b;
     signature := signature b |}.

(** A signed request whose timestamp is not a date. *)
Definition undated (id n : string) : InboxBody :=
  signed
    {| task_id := Some id; requester_id := Some requesterKey;
       task_type := Some "research.web"; description := Some "x";
       params := JNull; payment_offer := JNull;
       callback_url := JNull; deadline := JNull;
       nonce := Some n; timestamp := Some "not-a-date";
       signature := None |}
    requesterKey.
End Scenario.

(** ** Start-up and the nonce file (server.js, bootstrap) *)

(** What the server finds at [seen-nonces.json] when it starts: no file,
    a file that [JSON.parse] or [new Map] refuses, or a list of
    [[nonce, time]] pairs. *)
Inductive NonceFile : Type :=
| NoFile
| Unreadable
| Entries (raw : list (string * Z)).

(** [new Map(raw)]: a later pair replaces an earlier one with its key. *)
Definition Map_of_entries (raw : list (string * Z)) : gmap string Z :=
  foldl (fun m kv => <[kv.1 := kv.2]> m) ∅ raw.

(** The state of a server that starts on a nonce file and two
    directories: the buckets are new, the nonces are the persisted
    ones. *)
Definition bootstrap (file : NonceFile) (tasksDir : gmap string Task)
    (receiptsDir : gmap string Receipt) : State :=
  {| rateBuckets := ∅;
     seenNonces :=
       match file with
       | Entries raw => Map_of_entries raw
       | NoFile | Unreadable => ∅
       end;
     tasks := tasksDir;
     receipts := receiptsDir |}.



Section Startup.
Context `{Platform}.

(** One firing of the [setInterval] callback: prune, then write
    [[...seenNonces]] to the nonce file. *)
Definition persistNonces (st : State) (now : Z) : State * NonceFile :=
  let st' := pruneNonces st now in
  (st', Entries (map_to_list (seenNonces st'))).

(** The process stops and starts again on what is on disk. *)
Definition restart (st : State) (file : NonceFile) : State :=
  bootstrap file (tasks st) (receipts st).
End Startup.

(** ** The client (client.js, sendTask) *)

(** The [opts] argument of [sendTask]; an option left out is
    [JUndefined]. *)
Record SendOpts : Type := {
  opt_params : JsVal;
  opt_payment_offer : JsVal;
  opt_callback_url : JsVal;
  opt_deadline : JsVal
}.

Definition no_opts : SendOpts :=
  {| opt_params := JUndefined; opt_payment_offer := JUndefined;
     opt_callback_url := JUndefined; opt_deadline := JUndefined |}.

(** The offer [sendTask] makes when the caller names none. *)
Definition default_payment_offer : JsVal :=
  JObj [("amount", JNum 1000); ("currency", JStr "sats");
        ("type", JStr "lightning")].

Section Client.
Context `{Platform}.

(** The [message] object of [sendTask] before it is signed; [taskId] and
    [nonce] are the two [crypto.randomUUID()] draws, [now] the client's
    clock. *)
Definition client_message (keys : AgentKeys) (taskId nonce : string)
    (now : Z) (taskType description : string) (opts : SendOpts) : JsVal :=
  JObj [ ("task_id", JStr taskId);
         ("requester_id", JStr (publicKey keys));
         ("task_type", JStr taskType);
         ("description", JStr description);
         ("params", js_or (opt_params opts) JNull);
         ("payment_offer",
          js_or (opt_payment_offer opts) default_payment_offer);
         ("callback_url", js_or (opt_callback_url opts) JNull);
         ("deadline", js_or (opt_deadline opts) JNull);
         ("nonce", JStr nonce);
         ("timestamp", JStr (Date_toISOString now)) ].

(** The body [sendTask] posts: the message with its signature; [None]
    when signing throws. *)
Definition sendTask (keys : AgentKeys) (taskId nonce : string) (now : Z)
    (taskType description : string) (opts : SendOpts) : option InboxBody :=
  match signMessage keys
          (client_message keys taskId nonce now taskType description opts)
  with
  | None => None
  | Some sig =>
      Some {| task_id := Some taskId;
              requester_id := Some (publicKey keys);
              task_type := Some taskType;
              description := Some description;
              params := js_or (opt_params opts) JNull;
              payment_offer :=
                js_or (opt_payment_offer opts) default_payment_offer;
              callback_url := js_or (opt_callback_url opts) JNull;
              deadline := js_or (opt_deadline opts) JNull;
              nonce := Some nonce;
              timestamp := Some (Date_toISOString now);
              signature := Some sig |}
  end.
End Client.

(** ** The file-drop bridge (picoclaw-bridge.js)

    The bridge watches a directory for task descriptions, signs and posts
    each one to the inbox, keeps a tracking file per accepted task and
    polls the status route.  A [fetch] is a call of the server's route,
    or a failure of the network; the directories are finite maps from
    file names to parsed contents. *)

(** [s.endsWith(suffix)] *)
Definition ends_with (s suffix : string) : bool :=
  let n := String.length s in
  let m := String.length suffix in
  Nat.leb m n && String.eqb (substring (n - m) m s) suffix.

(** [path.basename(f, '.json')] for a bare file name *)
Definition basename_json (f : string) : string :=
  if ends_with f ".json" && negb (String.eqb f ".json")
  then substring 0 (String.length f - 5) f
  else f.

(** A parsed drop file: [task_type] and [description] may be absent. *)
Record DropFile : Type := {
  raw_task_type : option string;
  raw_description : option string;
  raw_params : JsVal;
  raw_payment_offer : JsVal;
  raw_deadline : JsVal
}.

(** A tracking file; [result], [receipt] and [completed] are added when
    the task is found completed. *)
Record Tracking : Type := {
  k_task_id : string;
  k_status : string;
  k_status_url : string;
  k_submitted : string;
  k_source_file : string;
  k_result : JsVal;
  k_receipt : option Receipt;
  k_completed : option string
}.

(** What the bridge draws and meets while it submits one file: two
    UUIDs, its clock, whether the network carries the request, and the
    server's clock when the request arrives. *)
Record Draw : Type := {
  d_task_id : string;
  d_nonce : string;
  d_now : Z;
  d_network : bool;
  d_server_now : Z
}.

(** The bridge's memory and result directory, and the server it talks
    to. *)
Record World : Type := {
  processed : list string;
  results : gmap string Tracking;
  server : State
}.

(** The value of a string field that may be absent. *)
Definition opt_str (f : option string) : JsVal :=
  match f with
  | Some s => JStr s
  | None => JUndefined
  end.

Definition AIP_STATUS_BASE : string := "http://localhost:3141/tasks".

Section Bridge.
Context `{Platform}.
Variable manifest : Manifest.

(** [res.ok] *)
Definition res_ok (r : Response) : bool := (200 <=? code r) && (code r <=? 299).

(** [data.status] of a JSON answer *)
Definition data_status (r : Response) : option string :=
  match body r with
  | BAccepted status _ _ => Some status
  | BStatus _ s _ _ _ _ _ => Some (status_str s)
  | BCompleted _ _ => Some "completed"
  | BRejected _ _ => Some "rejected"
  | _ => None
  end.

Definition bridge_message (keys : AgentKeys) (d : Draw) (raw : DropFile)
  : JsVal :=
  JObj [ ("task_id", JStr (d_task_id d));
         ("requester_id", JStr (publicKey keys));
         ("task_type", opt_str (raw_task_type raw));
         ("description", opt_str (raw_description raw));
         ("params", js_or (raw_params raw) JNull);
         ("payment_offer",
          js_or (raw_payment_offer raw) default_payment_offer);
         ("callback_url", JNull);
         ("deadline", js_or (raw_deadline raw) JNull);
         ("nonce", JStr (d_nonce d));
         ("timestamp", JStr (Date_toISOString (d_now d))) ].

Definition bridge_body (keys : AgentKeys) (d : Draw) (raw : DropFile)
    (sig : string) : InboxBody :=
  {| task_id := Some (d_task_id d);
     requester_id := Some (publicKey keys);
     task_type := raw_task_type raw;
     description := raw_description raw;
     params := js_or (raw_params raw) JNull;
     payment_offer := js_or (raw_payment_offer raw) default_payment_offer;
     callback_url := JNull;
     deadline := js_or (raw_deadline raw) JNull;
     nonce := Some (d_nonce d);
     timestamp := Some (Date_toISOString (d_now d));
     signature := Some sig |}.

Definition new_tracking (d : Draw) (file : string) (status : option string)
  : Tracking :=
  {| k_task_id := d_task_id d;
     k_status := str status;
     k_status_url :=
       (AIP_STATUS_BASE ++ "/" ++ d_task_id d ++ "/status")%string;
     k_submitted := Date_toISOString (d_now d);
     k_source_file := file;
     k_result := JUndefined;
     k_receipt := None;
     k_completed := None |}.

(** [submitTask(taskFile)] on a parsed file: [None] when signing throws;
    otherwise the answer of the inbox ([None] when the network fails) and
    the world after it. *)
Definition submitTask (keys : AgentKeys) (d : Draw) (file : string)
    (raw : DropFile) (w : World) : option (option Response * World) :=
  match signMessage keys (bridge_message keys d raw) with
  | None => None
  | Some sig =>
      if negb (d_network d) then Some (None, w)
      else
        let (res, srv) :=
          post_inbox manifest (server w) (d_server_now d)
            (bridge_body keys d raw sig) in
        let results' :=
          if res_ok res
          then <[(basename_json file ++ "-tracking.json")%string :=
                   new_tracking d file (data_status res)]> (results w)
          else results w in
        Some (Some res,
              {| processed := processed w; results := results';
                 server := srv |})
  end.

(** [markProcessed(f)]: a [Set] keeps one copy. *)
Definition markProcessed (f : string) (w : World) : World :=
  {| processed :=
       if bool_decide (f ∈ processed w) then processed w
       else processed w ++ [f];
     results := results w; server := server w |}.

(** The files a tick picks up: [aip-*.json], not yet processed. *)
Definition eligible (done : list string) (f : string) : bool :=
  ends_with f ".json" && String.prefix "aip-" f
  && negb (bool_decide (f ∈ done)).

(** The loop of a tick over the files it picked up; a file that does not
    parse ([None]) or a signature that cannot be made throws and ends the
    loop; the flag tells whether the loop ran to its end. *)
Fixpoint submitFiles (keys : AgentKeys) (draw : string -> Draw)
    (files : list (string * option DropFile)) (w : World) : World * bool :=
  match files with
  | [] => (w, true)
  | (f, content) :: rest =>
      match content with
      | None => (w, false)
      | Some raw =>
          match submitTask keys (draw f) f raw w with
          | None => (w, false)
          | Some (_, w') => submitFiles keys draw rest (markProcessed f w')
          end
      end
  end.

(** [data.result] and [data.receipt] of a JSON answer *)
Definition data_result (r : Response) : JsVal :=
  match body r with
  | BStatus _ _ _ _ _ result _ => result
  | _ => JUndefined
  end.

Definition data_receipt (r : Response) : option Receipt :=
  match body r with
  | BStatus _ _ _ _ _ _ receipt => receipt
  | BCompleted _ receipt => Some receipt
  | _ => None
  end.

(** One tracking file in [pollResults]; [answer] is what
    [fetch(tracking.status_url)] brought back, [None] when the fetch or
    the reading of its body throws. *)
Definition poll_one (answer : option Response) (now : Z) (tr : Tracking)
  : Tracking :=
  if String.eqb (k_status tr) "completed" then tr
  else
    match answer with
    | None => tr
    | Some data =>
        match data_status data with
        | Some "completed" =>
            {| k_task_id := k_task_id tr;
               k_status := "completed";
               k_status_url := k_status_url tr;
               k_submitted := k_submitted tr;
               k_source_file := k_source_file tr;
               k_result := data_result data;
               k_receipt := data_receipt data;
               k_completed := Some (Date_toISOString now) |}
        | _ => tr
        end
    end.

(** [pollResults()]: every file named [...-tracking.json] is polled;
    [fetch f url] is the answer to the request that the file [f] makes
    for [url]. *)
Definition pollResults (now : Z) (fetch : string -> string -> option Response)
    (w : World) : World :=
  {| processed := processed w;
     results :=
       map_imap
         (fun f tr =>
            Some (if ends_with f "-tracking.json"
                  then poll_one (fetch f (k_status_url tr)) now tr
                  else tr))
         (results w);
     server := server w |}.

(** One firing of the watch timer on a listing of the task directory,
    run to its end before the next one starts. *)
Definition watch_tick (keys : AgentKeys) (draw : string -> Draw)
    (dir : list (string * option DropFile)) (now : Z)
    (fetch : string -> string -> option Response) (w : World) : World :=
  let files :=
    List.filter (fun fc : string * option DropFile =>
                   eligible (processed w) fc.1) dir in
  let (w', finished) := submitFiles keys draw files w in
  if finished then pollResults now fetch w' else w'.
(** The server handles the events [evs] between two ticks. *)
Definition server_runs (agentKeys : AgentKeys) (evs : list (Z * Event))
    (w : World) : World :=
  {| processed := processed w; results := results w;
     server := run agentKeys manifest (server w) evs |}.
End Bridge.

(** ** Vocabulary of the further properties *)

Global Instance JsNum_eq_dec : EqDecision JsNum.
Proof. solve_decision. Defined.

Definition listed_tasks (r : Response) : list TaskRow :=
  match body r with
  | BTasks _ items => items
  | _ => []
  end.

Definition listed_receipts (r : Response) : list Receipt :=
  match body r with
  | BReceipts _ _ items => items
  | _ => []
  end.

(** How many items [slice(0, n)] keeps of a list of [len]. *)
Definition kept (len : nat) (n : Z) : nat :=
  if n <? 0 then Z.to_nat (Z.max (Z.of_nat len + n) 0)
  else Nat.min (Z.to_nat n) len.

(** The clock readings of a trace never go back, starting from [t]. *)
Fixpoint nondecreasing (t : Z) (evs : list (Z * Event)) : Prop :=
  match evs with
  | [] => True
  | (t', _) :: evs' => t <= t' /\ nondecreasing t' evs'
  end.

(** The clock reading of the last event of a trace that starts at [t]. *)
Definition end_time (t : Z) (evs : list (Z * Event)) : Z :=
  foldl (fun _ ev => ev.1) t evs.

Section Consistency.
Context `{Platform}.
Variable agentKeys : AgentKeys.


Definition dated (s : string) : Prop := Date_getTime s <> NaN.

Global Instance dated_dec (s : string) : Decision (dated s).
Proof. unfold dated. apply _. Defined.

(** Receipt [r] is the receipt of task [t]: it names the task, its
    requester and type and this agent, and carries the hash of the
    result stored on the task. *)
Definition receipt_matches (t : Task) (r : Receipt) : Prop :=
  r_task_id (r_data r) = t_task_id t
  /\ r_requester_id (r_data r) = t_requester_id t
  /\ r_agent_id (r_data r) = publicKey agentKeys
  /\ r_task_type (r_data r) = t_task_type t
  /\ r_result_hash (r_data r) = sha256_hex (JSON_stringify (t_result t)).

(** The receipt embedded in a task file is the receipt of that task and
    is the one in the receipt directory. *)
Definition receipts_consistent (st : State) : Prop :=
  forall k t r,
    tasks st !! k = Some t -> t_receipt t = Some r ->
    receipt_matches t r /\ receipts st !! k = Some r.

(** What a task file holds, by status. *)
Definition status_consistent (st : State) : Prop :=
  forall k t,
    tasks st !! k = Some t ->
    match t_status t with
    | pending =>
        t_result t = JNull /\ t_receipt t = None
        /\ t_rejection_reason t = JUndefined
    | completed => truthy (t_result t) = true /\ is_Some (t_receipt t)
    | rejected => truthy (t_rejection_reason t) = true
    end.
End Consistency.

(** ** A day of the sample agent and of a bridge next to it *)

Module Walkthrough.
Import Sample Scenario.

(** Task [t1] is submitted and completed, task [t2] is submitted and
    rejected, and the timer fires a minute after the start. *)
Definition day : list (Z * Event) :=
  [ (T0, PostInbox (request "t1" "n1" T0));
    (T0 + 5000, PostTaskComplete "t1" finding JUndefined);
    (T0 + 6000, PostInbox (request "t2" "n2" (T0 + 6000)));
    (T0 + 7000, PostTaskReject "t2" JUndefined);
    (T0 + 60000, PruneTimer) ].

Definition day_state : State := serve empty_state day.

(** The keys of the requester, for the client and for the bridge. *)
Definition requesterKeys : AgentKeys :=
  {| publicKey := requesterKey; secretKey := requesterKey |}.

(** A dropped file, the draws of the bridge for a file name, and a
    bridge that starts next to a server that starts. *)
Definition drop : DropFile :=
  {| raw_task_type := Some "research.web";
     raw_description := Some "look";
     raw_params := JUndefined;
     raw_payment_offer := JUndefined;
     raw_deadline := JUndefined |}.

Definition draws (f : string) : Draw :=
  {| d_task_id := ("id-" ++ f)%string;
     d_nonce := ("nonce-" ++ f)%string;
     d_now := T0;
     d_network := true;
     d_server_now := T0 + 1 |}.

Definition world0 : World :=
  {| processed := []; results := ∅; server := empty_state |}.

Definition two_drops : list (string * option DropFile) :=
  [("aip-1.json", Some drop); ("aip-2.json", Some drop)].

Definition broken_drop : list (string * option DropFile) :=
  [("notes.txt", None); ("aip-0.json", None); ("aip-1.json", Some drop)].

(** A network that carries the request for the status URL of one of
    [ids] to the server [st], and loses every other request. *)
Definition carrier (st : State) (ids : list string) (f url : string)
  : option Response :=
  head (omap (fun id : string =>
                if String.eqb url
                     (AIP_STATUS_BASE ++ "/" ++ id ++ "/status")%string
                then Some (get_task_status st id)
                else None) ids).

Definition no_network (f url : string) : option Response := None.

(** The bridge after it has posted [aip-1.json], and after the agent has
    completed the task. *)
Definition world1 : World :=
  match submitTask (H := platform) manifest requesterKeys
          (draws "aip-1.json") "aip-1.json" drop world0 with
  | Some (_, w) => w
  | None => world0
  end.

Definition world2 : World :=
  server_runs (H := platform) manifest agentKeys
    [(T0 + 5000, PostTaskComplete "id-aip-1.json" finding JUndefined)]
    world1.

(** A bridge that tracks the task [t1] of the end-to-end scenario. *)
Definition tracked : Tracking :=
  {| k_task_id := "t1";
     k_status := "accepted";
     k_status_url := "http://localhost:3141/tasks/t1/status";
     k_submitted := "2026-02-16T00:00:00.000Z";
     k_source_file := "aip-1.json";
     k_result := JUndefined;
     k_receipt := None;
     k_completed := None |}.

Definition tracking_world : World :=
  {| processed := ["aip-1.json"];
     results := {["aip-1-tracking.json" := tracked]};
     server := completed_state |}.
End Walkthrough.

(** ** Tactics *)

(** The cases of an indicator [if requester = r && counted < max ...]. *)
Ltac count_cases :=
  case_bool_decide; destruct (decide _); try done; simpl; try lia;
  subst; by rewrite bool_decide_true.

(** A conjunction of closed equations, each settled by evaluation. *)
Ltac by_running :=
  repeat match goal with |- _ /\ _ => split end; vm_compute; reflexivity.

(** * Properties *)

Section Properties.
Context `{Platform}.
Variable agentKeys : AgentKeys.
Variable manifest : Manifest.

(** ** The two trackers *)

Lemma state_eta st :
  {| rateBuckets := rateBuckets st; seenNonces := seenNonces st;
     tasks := tasks st; receipts := receipts st |} = st.
Proof. by destruct st. Qed.

Lemma checkRateLimit_allowed (rb : gmap string (list Z)) rid now :
  let bucket := filter (fun ts => in_window now ts = true)
                  (default [] (rb !! rid)) in
  (length bucket < RATE_MAX_REQUESTS)%nat ->
  checkRateLimit rb rid now = (true, <[rid := bucket ++ [now]]> rb).
Proof.
  intros bucket Hlt. subst bucket. unfold checkRateLimit.
  destruct (rb !! rid) as [l|] eqn:Hl.
  - rewrite Hl. simpl in *.
    destruct (decide _) as [Hge|_]; [lia|done].
  - rewrite lookup_insert_eq. simpl. by rewrite insert_insert_eq.
Qed.

Lemma checkRateLimit_limited (rb : gmap string (list Z)) rid now :
  let bucket := filter (fun ts => in_window now ts = true)
                  (default [] (rb !! rid)) in
  (RATE_MAX_REQUESTS <= length bucket)%nat ->
  checkRateLimit rb rid now = (false, rb).
Proof.
  intros bucket Hge. subst bucket. unfold checkRateLimit.
  destruct (rb !! rid) as [l|] eqn:Hl.
  - rewrite Hl. simpl in *.
    destruct (decide _) as [_|Hlt]; [done|lia].
  - simpl in Hge. unfold RATE_MAX_REQUESTS in Hge. lia.
Qed.

Lemma checkNonce_fresh (sn : gmap string Z) n ts now :
  js_gt (Math_abs (js_sub (Num now) (Date_getTime ts)))
    (Num NONCE_EXPIRY_MS) = false ->
  sn !! n = None ->
  checkNonce sn n ts now = (true, <[n := now]> sn).
Proof. intros Hw Hn. unfold checkNonce. by rewrite Hw, Hn. Qed.

Lemma checkNonce_seen (sn : gmap string Z) n ts now :
  is_Some (sn !! n) -> checkNonce sn n ts now = (false, sn).
Proof.
  intros [t Ht]. unfold checkNonce. rewrite Ht. by destruct (js_gt _ _).
Qed.

Lemma checkNonce_out_of_window (sn : gmap string Z) n ts now t :
  Date_getTime ts = Num t -> NONCE_EXPIRY_MS < Z.abs (now - t) ->
  checkNonce sn n ts now = (false, sn).
Proof.
  intros Ht Hfar. unfold checkNonce. rewrite Ht. simpl.
  by apply Z.ltb_lt in Hfar as ->.
Qed.

(** The pipeline of [post_inbox], one lemma per exit. *)

Lemma post_inbox_missing st now b :
  has_required_fields b = false ->
  post_inbox manifest st now b = (reply 400 (BError "missing_fields" None), st).
Proof. intros Hf. unfold post_inbox. by rewrite Hf. Qed.

Lemma post_inbox_limited st now b :
  has_required_fields b = true ->
  (RATE_MAX_REQUESTS <= counted st (str (requester_id b)) now)%nat ->
  post_inbox manifest st now b = (reply 429 (BError "rate_limited" None), st).
Proof.
  intros Hf Hc. unfold post_inbox. rewrite Hf. simpl.
  rewrite checkRateLimit_limited by exact Hc. simpl.
  unfold set_rateBuckets. by rewrite state_eta.
Qed.

Lemma post_inbox_counted st now b :
  has_required_fields b = true ->
  (counted st (str (requester_id b)) now < RATE_MAX_REQUESTS)%nat ->
  post_inbox manifest st now b =
    let st1 := counted_state st b now in
    let (fresh, sn) :=
      checkNonce (seenNonces st1) (str (nonce b))
        (str (timestamp b)) now in
    let st2 := set_seenNonces sn st1 in
    if negb fresh then (reply 400 (BError "invalid_nonce" None), st2)
    else if negb (verifySignature (messageToVerify b)
                    (str (signature b)) (str (requester_id b)))
    then (reply 401 (BError "invalid_signature" None), st2)
    else if negb (existsb (fun c => String.eqb c (str (task_type b)))
                    (capabilities manifest))
    then (reply 404 (BError "capability_not_found"
                       (Some (capabilities manifest))), st2)
    else (reply 201 (BAccepted "accepted" (t_task_id (new_task b now))
                       ("/tasks/" ++ t_task_id (new_task b now) ++ "/status")),
          saveTask (new_task b now) st2).
Proof.
  intros Hf Hc. unfold post_inbox. rewrite Hf. simpl negb. cbv iota.
  rewrite checkRateLimit_allowed by exact Hc. reflexivity.
Qed.

Lemma post_inbox_accepted st now b :
  has_required_fields b = true ->
  (counted st (str (requester_id b)) now < RATE_MAX_REQUESTS)%nat ->
  js_gt (Math_abs (js_sub (Num now) (Date_getTime (str (timestamp b)))))
    (Num NONCE_EXPIRY_MS) = false ->
  seenNonces st !! str (nonce b) = None ->
  verifySignature (messageToVerify b) (str (signature b))
    (str (requester_id b)) = true ->
  str (task_type b) ∈ capabilities manifest ->
  post_inbox manifest st now b =
    (reply 201 (BAccepted "accepted" (str (task_id b))
                  ("/tasks/" ++ str (task_id b) ++ "/status")),
     saveTask (new_task b now) (recorded_state st b now)).
Proof.
  intros Hf Hc Hw Hn Hs Hcap.
  rewrite post_inbox_counted by assumption. cbv zeta.
  rewrite checkNonce_fresh by assumption. simpl negb. cbv iota.
  rewrite Hs. simpl negb. cbv iota.
  assert (existsb (fun c => String.eqb c (str (task_type b)))
            (capabilities manifest) = true) as ->; [|done].
  apply existsb_exists. exists (str (task_type b)). split.
  - by apply list_elem_of_In.
  - apply String.eqb_refl.
Qed.


(** ** Submission *)


(** C9. A timestamp that does not parse as a date (its time value is
    NaN) is not stopped by the five-minute window: with a nonce not seen
    before, [checkNonce] answers true and records the nonce, and a
    request that is otherwise in order is accepted with 201. *)
Theorem unparseable_timestamp_accepted st now b :
  has_required_fields b = true ->
  (counted st (str (requester_id b)) now < RATE_MAX_REQUESTS)%nat ->
  Date_getTime (str (timestamp b)) = NaN ->
  seenNonces st !! str (nonce b) = None ->
  verifySignature (messageToVerify b) (str (signature b))
    (str (requester_id b)) = true ->
  str (task_type b) ∈ capabilities manifest ->
  checkNonce (seenNonces st) (str (nonce b)) (str (timestamp b)) now =
    (true, <[str (nonce b) := now]> (seenNonces st))
  /\ code (post_inbox manifest st now b).1 = 201
  /\ seenNonces (post_inbox manifest st now b).2 !! str (nonce b) = Some now
  /\ is_Some (tasks (post_inbox manifest st now b).2 !! str (task_id b)).
Proof.
  intros Hf Hc Ht Hn Hs Hcap.
  assert (js_gt (Math_abs (js_sub (Num now)
                   (Date_getTime (str (timestamp b)))))
            (Num NONCE_EXPIRY_MS) = false) as Hw by (by rewrite Ht).
  split; [by apply checkNonce_fresh|].
  rewrite post_inbox_accepted by assumption. simpl.
  rewrite !lookup_insert_eq. eauto.
Qed.

Lemma counted_state_nonces st b now :
  seenNonces (counted_state st b now) = seenNonces st.
Proof. reflexivity. Qed.

Lemma has_capability_spec (ty : string) (caps : list string) :
  existsb (fun c => String.eqb c ty) caps = true <-> ty ∈ caps.
Proof.
  rewrite existsb_exists, list_elem_of_In. split.
  - intros (c & Hin & Heq). by apply String.eqb_eq in Heq as <-.
  - intros Hin. exists ty. split; [done|]. apply String.eqb_refl.
Qed.

(** Every call of the route leaves by one of the six exits. *)
Lemma post_inbox_outcome st now b :
  inbox_outcome manifest st now b
    (post_inbox manifest st now b).1 (post_inbox manifest st now b).2.
Proof.
  destruct (has_required_fields b) eqn:Hf.
  2: { rewrite post_inbox_missing by done. by constructor. }
  destruct (decide (RATE_MAX_REQUESTS
                    <= counted st (str (requester_id b)) now)%nat)
    as [Hge|Hlt].
  { rewrite post_inbox_limited by done. by constructor. }
  assert (limiter_passes st now b) as Hpass by (split; [done|lia]).
  rewrite post_inbox_counted by (done || lia). cbv zeta.
  rewrite counted_state_nonces. unfold checkNonce.
  destruct (js_gt _ _) eqn:Hw.
  { change (inbox_outcome manifest st now b
              (reply 400 (BError "invalid_nonce" None))
              (counted_state st b now)).
    apply out_invalid_nonce; [done|]. unfold checkNonce. by rewrite Hw. }
  destruct (seenNonces st !! str (nonce b)) as [t|] eqn:Hn.
  { change (inbox_outcome manifest st now b
              (reply 400 (BError "invalid_nonce" None))
              (counted_state st b now)).
    apply out_invalid_nonce; [done|]. unfold checkNonce.
    by rewrite Hw, Hn. }
  simpl negb. cbv iota. fold (signature_ok b).
  destruct (signature_ok b) eqn:Hs; simpl negb; cbv iota.
  2: { by apply out_invalid_signature. }
  destruct (existsb _ _) eqn:Hcap; simpl negb; cbv iota.
  - apply has_capability_spec in Hcap. by apply out_accepted.
  - apply out_capability_not_found; try done.
    intros Hin. apply has_capability_spec in Hin. congruence.
Qed.

(** ** What one event does to the trackers *)

Lemma handle_post_inbox st t b :
  (handle agentKeys manifest st t (PostInbox b)).2
  = (post_inbox manifest st t b).2.
Proof. simpl. by destruct (post_inbox manifest st t b). Qed.

Lemma post_task_complete_trackers st t id result proof :
  let st' := (post_task_complete agentKeys st t id result proof).2 in
  rateBuckets st' = rateBuckets st /\ seenNonces st' = seenNonces st.
Proof.
  unfold post_task_complete. destruct (loadTask st id); [|done].
  destruct (truthy result); [|done]. simpl.
  by destruct (signMessage _ _).
Qed.

Lemma post_task_reject_trackers st t id reason :
  let st' := (post_task_reject st t id reason).2 in
  rateBuckets st' = rateBuckets st /\ seenNonces st' = seenNonces st.
Proof. unfold post_task_reject. by destruct (loadTask st id). Qed.

Lemma event_cases (e : Event) :
  (exists b, e = PostInbox b) \/ (forall b, e <> PostInbox b).
Proof. destruct e; eauto; right; congruence. Qed.

(** Only [POST /inbox] touches the buckets. *)
Lemma handle_buckets st t e :
  (forall b, e <> PostInbox b) ->
  rateBuckets (handle agentKeys manifest st t e).2 = rateBuckets st.
Proof.
  intros Hne. destruct e as [b|id|id result proof|id reason|a ty l|s l|];
    try done.
  - by destruct (Hne b).
  - simpl. pose proof (post_task_complete_trackers st t id result proof) as [? _].
    by destruct (post_task_complete _ _ _ _ _ _).
  - simpl. pose proof (post_task_reject_trackers st t id reason) as [? _].
    by destruct (post_task_reject _ _ _ _).
Qed.

(** A nonce on record stays on record, with its first-seen time, as
    long as the clock has not passed twice the expiry after it. *)
Lemma handle_keeps_nonce st t e n t0 now :
  seenNonces st !! n = Some t0 ->
  t <= now -> now - t0 <= NONCE_EXPIRY_MS * 2 ->
  seenNonces (handle agentKeys manifest st t e).2 !! n = Some t0.
Proof.
  intros Hn Ht Hnow.
  destruct e as [b|id|id result proof|id reason|a ty l|s l|]; try done.
  - rewrite handle_post_inbox.
    destruct (post_inbox_outcome st t b); try done; simpl;
      rewrite lookup_insert_ne; try done; congruence.
  - simpl. pose proof (post_task_complete_trackers st t id result proof) as [_ Hs].
    destruct (post_task_complete _ _ _ _ _ _). simpl in *. by rewrite Hs.
  - simpl. pose proof (post_task_reject_trackers st t id reason) as [_ Hs].
    destruct (post_task_reject _ _ _ _). simpl in *. by rewrite Hs.
  - simpl. apply map_lookup_filter_Some. split; [done|]. simpl. lia.
Qed.

Lemma run_keeps_nonce evs st n t0 now :
  seenNonces st !! n = Some t0 ->
  not_after now evs -> now - t0 <= NONCE_EXPIRY_MS * 2 ->
  seenNonces (run agentKeys manifest st evs) !! n = Some t0.
Proof.
  revert st. induction evs as [|[t e] evs IH]; intros st Hn Hevs Hnow.
  - done.
  - apply Forall_cons in Hevs as [Ht Hevs]. simpl.
    apply IH; [|done..]. by eapply handle_keeps_nonce.
Qed.

(** ** The sliding window *)

(** While the clock is not past [now], pruning a bucket at [t] loses
    nothing that is still inside the window at [now]. *)
Lemma filter_window_earlier (l : list Z) t now :
  t <= now ->
  filter (fun ts => in_window now ts = true)
    (filter (fun ts => in_window t ts = true) l)
  = filter (fun ts => in_window now ts = true) l.
Proof.
  intros Ht. induction l as [|x l IH]; [done|].
  rewrite !filter_cons.
  destruct (decide (in_window now x = true)) as [Hx|Hx].
  - assert (in_window t x = true) as Hx'.
    { unfold in_window in *. apply Z.ltb_lt. apply Z.ltb_lt in Hx. lia. }
    rewrite decide_True by done. rewrite filter_cons.
    rewrite decide_True by done. by rewrite IH.
  - destruct (decide (in_window t x = true)); [|done].
    rewrite filter_cons. by rewrite decide_False.
Qed.

(** What a counted request does to the count of its requester and of
    the others. *)
Lemma counted_after_count st b t requester now :
  t <= now ->
  counted (counted_state st b t) requester now
  = if decide (str (requester_id b) = requester)
    then (counted st requester now
          + (if in_window now t then 1 else 0))%nat
    else counted st requester now.
Proof.
  intros Ht. unfold counted, recent, counted_state. simpl.
  destruct (decide _) as [<-|Hne].
  - rewrite lookup_insert_eq. simpl. rewrite filter_app, length_app.
    fold (recent st (str (requester_id b)) t). unfold recent.
    rewrite filter_window_earlier by done. f_equal.
    rewrite filter_cons, filter_nil.
    destruct (in_window now t); by simpl.
  - by rewrite lookup_insert_ne.
Qed.

Lemma counted_buckets st st' requester now :
  rateBuckets st' = rateBuckets st ->
  counted st' requester now = counted st requester now.
Proof. unfold counted, recent. by intros ->. Qed.

Lemma handle_counts st t e requester now :
  t <= now ->
  counted (handle agentKeys manifest st t e).2 requester now
  = (counted st requester now
     + (if is_counted st t e requester && in_window now t then 1 else 0))%nat.
Proof.
  intros Ht.
  destruct (event_cases e) as [[b ->]|Hne].
  2: { rewrite (counted_buckets st) by by apply handle_buckets.
       destruct e; try (simpl; lia). by destruct (Hne b). }
  rewrite handle_post_inbox. simpl is_counted.
  destruct (post_inbox_outcome st t b) as [Hf|Hf Hge|[Hf Hlt] _|[Hf Hlt] _ _
                                            |[Hf Hlt] _ _ _|[Hf Hlt] _ _ _].
  - rewrite Hf. simpl. lia.
  - rewrite Hf. simpl. case_bool_decide as Hr; simpl; [|lia].
    subst requester. rewrite bool_decide_false by lia. simpl. lia.
  - rewrite counted_after_count by done. rewrite Hf. simpl.
    count_cases.
  - rewrite (counted_buckets (counted_state st b t)) by done.
    rewrite counted_after_count by done. rewrite Hf. simpl.
    count_cases.
  - rewrite (counted_buckets (counted_state st b t)) by done.
    rewrite counted_after_count by done. rewrite Hf. simpl.
    count_cases.
  - rewrite (counted_buckets (counted_state st b t)) by done.
    rewrite counted_after_count by done. rewrite Hf. simpl.
    count_cases.
Qed.

(** The bucket holds every request counted along the trace that is
    still inside the window. *)
Lemma run_counts evs st requester now :
  not_after now evs ->
  counted (run agentKeys manifest st evs) requester now
  = (counted st requester now
     + counted_in_trace manifest agentKeys st evs requester now)%nat.
Proof.
  revert st. induction evs as [|[t e] evs IH]; intros st Hevs.
  - simpl. lia.
  - apply Forall_cons in Hevs as [Ht Hevs]. simpl.
    rewrite IH by done. rewrite handle_counts by done. lia.
Qed.

Lemma handle_bounded st t e :
  buckets_bounded st -> buckets_bounded (handle agentKeys manifest st t e).2.
Proof.
  intros Hb.
  destruct (event_cases e) as [[b ->]|Hne].
  2: { intros r l. rewrite handle_buckets by done. apply Hb. }
  rewrite handle_post_inbox.
  assert (buckets_bounded (counted_state st b t) \/
          ~ limiter_passes st t b) as Hc.
  { destruct (decide (limiter_passes st t b)) as [[_ Hlt]|]; [left|by right].
    intros r l. unfold counted_state. simpl.
    destruct (decide (str (requester_id b) = r)) as [<-|Hr].
    - rewrite lookup_insert_eq. intros [= <-]. rewrite length_app. simpl.
      unfold counted in Hlt. lia.
    - rewrite lookup_insert_ne by done. apply Hb. }
  destruct (post_inbox_outcome st t b); try done;
    destruct Hc as [Hc|Hc]; try done; intros r l; apply Hc.
Qed.

Lemma run_bounded evs st :
  buckets_bounded st -> buckets_bounded (run agentKeys manifest st evs).
Proof.
  revert st. induction evs as [|[t e] evs IH]; intros st Hb; [done|].
  simpl. apply IH. by apply handle_bounded.
Qed.

(** ** Rejections *)

Lemma post_inbox_not_fresh st now b :
  limiter_passes st now b ->
  checkNonce (seenNonces st) (str (nonce b)) (str (timestamp b)) now
    = (false, seenNonces st) ->
  post_inbox manifest st now b
    = (reply 400 (BError "invalid_nonce" None), counted_state st b now).
Proof.
  intros [Hf Hlt] Hn. rewrite post_inbox_counted by done. cbv zeta.
  rewrite counted_state_nonces, Hn. reflexivity.
Qed.

Lemma accepted_records_nonce st now b :
  code (post_inbox manifest st now b).1 = 201 ->
  seenNonces (post_inbox manifest st now b).2 !! str (nonce b) = Some now.
Proof.
  intros Hc. destruct (post_inbox_outcome st now b); try done.
  simpl. by rewrite lookup_insert_eq.
Qed.

(** C5, as the code has it. A request that carries the required fields
    and passes the rate limiter, and whose nonce is the nonce of a request
    accepted no more than twice the expiry ago, is answered 400
    [invalid_nonce], whatever its other fields are and whatever happened
    in between. *)
Theorem replayed_nonce_rejected st0 t0 b0 evs now b :
  code (post_inbox manifest st0 t0 b0).1 = 201 ->
  not_after now evs ->
  now - t0 <= 2 * NONCE_EXPIRY_MS ->
  str (nonce b) = str (nonce b0) ->
  limiter_passes
    (run agentKeys manifest (post_inbox manifest st0 t0 b0).2 evs) now b ->
  (post_inbox manifest
     (run agentKeys manifest (post_inbox manifest st0 t0 b0).2 evs) now b).1
  = reply 400 (BError "invalid_nonce" None).
Proof.
  intros Hacc Hevs Hnow Hn Hpass.
  rewrite post_inbox_not_fresh; [done..|].
  apply checkNonce_seen. exists t0. rewrite Hn.
  apply (run_keeps_nonce evs _ _ t0 now); [|done|lia].
  by apply accepted_records_nonce.
Qed.

(** C6, as the code has it. A request that carries the required fields
    and passes the rate limiter, and whose timestamp is more than five
    minutes before or after the server's clock, is answered 400
    [invalid_nonce], whether or not its nonce is fresh and the rest of it
    is valid. *)
Theorem stale_timestamp_rejected st now b t :
  limiter_passes st now b ->
  Date_getTime (str (timestamp b)) = Num t ->
  NONCE_EXPIRY_MS < Z.abs (now - t) ->
  (post_inbox manifest st now b).1 = reply 400 (BError "invalid_nonce" None).
Proof.
  intros Hpass Ht Hfar. rewrite post_inbox_not_fresh; [done..|].
  by eapply checkNonce_out_of_window.
Qed.

Lemma verifySignature_true m s k :
  verifySignature m s k = true <->
  exists sb pb,
    decodeBase64 s = Some sb /\ decodeBase64 k = Some pb
    /\ nacl_sign_detached_verify (TextEncoder_encode (JSON_stringify m)) sb pb
        = Some true.
Proof.
  unfold verifySignature. split.
  - destruct (decodeBase64 s) as [sb|]; [|done].
    destruct (decodeBase64 k) as [pb|]; [|done].
    destruct (nacl_sign_detached_verify _ _ _) as [[]|] eqn:Hv; try done.
    eauto.
  - by intros (sb & pb & -> & -> & ->).
Qed.

(** C7, as the code has it. [verifySignature] is total: it answers false
    whenever a base64 decoding fails, the Ed25519 check throws, or the
    check fails.  A request that carries the required fields, passes the
    rate limiter and the replay check, and whose signature does not verify
    against [requester_id] over the ten canonical fields is answered 401
    [invalid_signature], whether or not its task type is supported. *)
Theorem unverified_signature_rejected st now b :
  limiter_passes st now b ->
  (checkNonce (seenNonces st) (str (nonce b)) (str (timestamp b)) now).1
    = true ->
  ~ (exists sb pb,
        decodeBase64 (str (signature b)) = Some sb
        /\ decodeBase64 (str (requester_id b)) = Some pb
        /\ nacl_sign_detached_verify
             (TextEncoder_encode (JSON_stringify (messageToVerify b))) sb pb
           = Some true) ->
  verifySignature (messageToVerify b) (str (signature b))
    (str (requester_id b)) = false
  /\ (post_inbox manifest st now b).1
     = reply 401 (BError "invalid_signature" None).
Proof.
  intros Hpass Hfresh Hbad.
  assert (signature_ok b = false) as Hs.
  { apply not_true_is_false. intros Hv. by apply verifySignature_true in Hv. }
  split; [done|].
  destruct (post_inbox_outcome st now b)
    as [Hf|Hf Hge|_ Hn| | |]; try done; try congruence.
  - destruct Hpass. congruence.
  - destruct Hpass. lia.
  - rewrite Hn in Hfresh. done.
Qed.

(** C3, as the code has it. A request that fails a check leaves no task
    and no receipt behind.  After [missing_fields] and [rate_limited] the
    whole state is what it was; after [invalid_nonce] the request has been
    counted in its requester's bucket and the nonce set is what it was;
    after [invalid_signature] and [capability_not_found] the request has
    been counted and its nonce has been recorded. *)
Theorem failed_request_effects st now b :
  code (post_inbox manifest st now b).1 <> 201 ->
  let r := (post_inbox manifest st now b).1 in
  let st' := (post_inbox manifest st now b).2 in
  tasks st' = tasks st /\ receipts st' = receipts st
  /\ (error_kind r = Some "missing_fields" \/ error_kind r = Some "rate_limited"
      -> st' = st)
  /\ (error_kind r = Some "invalid_nonce" ->
      st' = counted_state st b now /\ seenNonces st' = seenNonces st)
  /\ (error_kind r = Some "invalid_signature"
      \/ error_kind r = Some "capability_not_found" ->
      st' = recorded_state st b now).
Proof.
  intros Hfail. cbv zeta.
  destruct (post_inbox_outcome st now b); simpl; try done;
    repeat split; try done; intros [|]; done.
Qed.

(** C8, as the code has it. Once ten requests of an identity have been
    counted at times still inside the 60-second window, a further request
    of that identity that carries the required fields is answered 429
    [rate_limited] and changes nothing; when fewer than ten of the
    bucket's timestamps are left inside the window the request passes the
    rate-limit check; and no bucket ever holds more than ten entries. *)
Theorem rate_limit_window st0 evs now b :
  buckets_bounded st0 ->
  not_after now evs ->
  has_required_fields b = true ->
  let st := run agentKeys manifest st0 evs in
  let requester := str (requester_id b) in
  ((RATE_MAX_REQUESTS
    <= counted_in_trace manifest agentKeys st0 evs requester now)%nat ->
   post_inbox manifest st now b
   = (reply 429 (BError "rate_limited" None), st))
  /\ ((counted st requester now < RATE_MAX_REQUESTS)%nat ->
      (checkRateLimit (rateBuckets st) requester now).1 = true
      /\ error_kind (post_inbox manifest st now b).1 <> Some "rate_limited")
  /\ buckets_bounded st.
Proof.
  intros Hb Hevs Hf st requester. split; [|split].
  - intros Hten. apply post_inbox_limited; [done|].
    fold requester st. unfold st. rewrite run_counts by done. lia.
  - intros Hlt. split.
    + unfold counted, recent in Hlt. by rewrite checkRateLimit_allowed.
    + destruct (post_inbox_outcome st now b) as [|_ Hge| | | |]; try done.
      fold requester in Hge. lia.
  - by apply run_bounded.
Qed.

(** ** Completion and rejection *)




(** ** Listings *)

(** C10, as the code has it. When the [limit] parameter of [GET /tasks]
    or [GET /receipts] is a non-empty string that [parseInt] turns into
    NaN, the list returned is empty and its total is 0, whatever records
    the stores hold. *)
Theorem unparsable_limit_lists_nothing st status agent type limit :
  present limit = true ->
  parseInt (str limit) = NaN ->
  get_tasks st status limit = reply 200 (BTasks 0 [])
  /\ get_receipts agentKeys st agent type limit
     = reply 200 (BReceipts (publicKey agentKeys) 0 []).
Proof.
  intros Hp Hnan. unfold get_tasks, get_receipts.
  by rewrite Hp, Hnan.
Qed.

(** ** The task store stays keyed *)

Lemma saveTask_keyed task st :
  store_keyed st -> store_keyed (saveTask task st).
Proof.
  intros Hk k t. unfold saveTask. simpl.
  destruct (decide (t_task_id task = k)) as [<-|Hne].
  - rewrite lookup_insert_eq. by intros [= <-].
  - rewrite lookup_insert_ne by done. apply Hk.
Qed.

Lemma store_keyed_tasks st st' :
  tasks st' = tasks st -> store_keyed st -> store_keyed st'.
Proof. unfold store_keyed. by intros ->. Qed.

Lemma handle_keyed st t e :
  store_keyed st -> store_keyed (handle agentKeys manifest st t e).2.
Proof.
  intros Hk. destruct e as [b|id|id result proof|id reason|a ty l|s l|];
    try done.
  - rewrite handle_post_inbox.
    destruct (post_inbox_outcome st t b); try done.
    apply saveTask_keyed. by apply (store_keyed_tasks st).
  - simpl. unfold post_task_complete.
    destruct (loadTask st id); [|done]. destruct (truthy result); [|done].
    simpl. destruct (signMessage _ _); [|done]. simpl.
    eapply (store_keyed_tasks (saveTask _ st)); [reflexivity|].
    by apply saveTask_keyed.
  - simpl. unfold post_task_reject. destruct (loadTask st id); [|done].
    by apply saveTask_keyed.
Qed.

Lemma run_keyed evs st :
  store_keyed st -> store_keyed (run agentKeys manifest st evs).
Proof.
  revert st. induction evs as [|[t e] evs IH]; intros st Hk; [done|].
  simpl. apply IH. by apply handle_keyed.
Qed.
End Properties.

(** * The sample platform and the scenarios *)

Import Sample Scenario.

(** ** Facts about the toy codec and the toy signatures *)

Lemma sample_decode_byte (x : Byte.byte) (s : string) :
  decode (String (hex_char (Byte.to_N x / 16)%N)
            (String (hex_char (Byte.to_N x mod 16)%N) s))
  = match decode s with
    | Some r => Some (x :: r)
    | None => None
    end.
Proof. destruct x; reflexivity. Qed.

Lemma sample_decode_encode (b : bytes) : decode (encode b) = Some b.
Proof.
  induction b as [|x b IH]; [done|].
  cbn [encode]. by rewrite sample_decode_byte, IH.
Qed.

Lemma sample_bytes_eqb_refl (b : bytes) : bytes_eqb b b = true.
Proof. unfold bytes_eqb. by apply bool_decide_eq_true. Qed.

(** Under the toy scheme every non-empty key is a pair with itself. *)
Lemma sample_key_pair (k : bytes) :
  k <> [] ->
  forall m, exists sig,
    sign m k = Some sig /\ decode (encode sig) = Some sig
    /\ verify m sig k = Some true.
Proof.
  intros Hk m. exists (k ++ m). destruct k as [|x k]; [done|].
  repeat split.
  - apply sample_decode_encode.
  - unfold verify. by rewrite sample_bytes_eqb_refl.
Qed.

Lemma empty_state_keyed : store_keyed empty_state.
Proof. intros k t. unfold empty_state. simpl. by rewrite lookup_empty. Qed.

Lemma empty_state_bounded : buckets_bounded empty_state.
Proof. intros k t. unfold empty_state. simpl. by rewrite lookup_empty. Qed.

Lemma accepted_state_keyed : store_keyed accepted_state.
Proof. apply run_keyed, empty_state_keyed. Qed.

Lemma completed_state_keyed : store_keyed completed_state.
Proof. apply run_keyed, accepted_state_keyed. Qed.

(** ** The theorems at work *)

(** The end-to-end scenario of the specification: the request is
    accepted and pending, its replay is refused, and completion returns
    the hash of the result. *)
Example end_to_end_scenario :
  (submit empty_state T0 (request "t1" "n1" T0)).1
  = reply 201 (BAccepted "accepted" "t1" "/tasks/t1/status")
  /\ status_of (get_task_status accepted_state "t1") = Some pending
  /\ error_kind (submit accepted_state (T0 + 1000) (request "t1" "n1" T0)).1
     = Some "invalid_nonce"
  /\ status_of (get_task_status completed_state "t1") = Some completed
  /\ (r_result_hash ∘ r_data <$> receipt_of (get_task_status completed_state "t1"))
     = Some (digest (stringify finding)).
Proof. by_running. Qed.


Lemma unparseable_timestamp_accepted_witness :
  @Date_getTime platform "not-a-date" = NaN
  /\ code (submit empty_state T0 (undated "t1" "n1")).1 = 201
  /\ seenNonces (submit empty_state T0 (undated "t1" "n1")).2 !! "n1"
     = Some T0.
Proof.
  split; [reflexivity|].
  destruct (unparseable_timestamp_accepted (H := platform) manifest
              empty_state T0 (undated "t1" "n1")) as (_ & Hc & Hn & _).
  - reflexivity.
  - vm_compute. lia.
  - reflexivity.
  - reflexivity.
  - reflexivity.
  - vm_compute. set_solver.
  - split; assumption.
Defined.

Lemma replayed_nonce_rejected_witness :
  (submit
     (serve accepted_state
        [(T0 + 1000, GetTaskStatus "t1"); (T0 + 30000, PruneTimer)])
     (T0 + 60000) (request "t2" "n1" (T0 + 60000))).1
  = reply 400 (BError "invalid_nonce" None).
Proof.
  apply (replayed_nonce_rejected (H := platform) agentKeys manifest
           empty_state T0 (request "t1" "n1" T0)
           [(T0 + 1000, GetTaskStatus "t1"); (T0 + 30000, PruneTimer)]
           (T0 + 60000) (request "t2" "n1" (T0 + 60000))).
  - reflexivity.
  - repeat constructor; vm_compute; discriminate.
  - vm_compute. discriminate.
  - reflexivity.
  - split; [reflexivity|]. vm_compute. lia.
Defined.

Lemma stale_timestamp_rejected_witness :
  (submit empty_state (T0 + 301000) (request "t1" "n1" T0)).1
  = reply 400 (BError "invalid_nonce" None).
Proof.
  apply (stale_timestamp_rejected (H := platform) manifest empty_state
           (T0 + 301000) (request "t1" "n1" T0) T0).
  - split; [reflexivity|]. vm_compute. lia.
  - reflexivity.
  - vm_compute. reflexivity.
Defined.

Lemma unverified_signature_rejected_witness :
  verifySignature (H := platform) (messageToVerify (forged "t1" "n1" T0))
    "AAAA" requesterKey = false
  /\ (submit empty_state T0 (forged "t1" "n1" T0)).1
     = reply 401 (BError "invalid_signature" None).
Proof.
  apply (unverified_signature_rejected (H := platform) manifest empty_state
           T0 (forged "t1" "n1" T0)).
  - split; [reflexivity|]. vm_compute. lia.
  - reflexivity.
  - intros (sb & pb & Hs & _). vm_compute in Hs. discriminate.
Defined.

Lemma failed_request_effects_witness :
  let st' := (submit empty_state T0 (forged "t1" "n1" T0)).2 in
  tasks st' = ∅ /\ receipts st' = ∅
  /\ st' = recorded_state empty_state (forged "t1" "n1" T0) T0.
Proof.
  destruct (failed_request_effects (H := platform) manifest empty_state T0
              (forged "t1" "n1" T0)) as (Ht & Hr & _ & _ & Hs).
  - vm_compute. discriminate.
  - split; [exact Ht|]. split; [exact Hr|]. apply Hs. by left.
Defined.

Lemma rate_limit_window_witness :
  submit busy_state (T0 + 10) (request "t10" "n10" (T0 + 10))
  = (reply 429 (BError "rate_limited" None), busy_state)
  /\ error_kind
       (submit busy_state (T0 + 60005) (request "t10" "n10" (T0 + 60005))).1
     <> Some "rate_limited"
  /\ buckets_bounded busy_state.
Proof.
  destruct (rate_limit_window (H := platform) agentKeys manifest empty_state
              burst (T0 + 10) (request "t10" "n10" (T0 + 10)))
    as (Hten & _ & Hb).
  - apply empty_state_bounded.
  - repeat constructor; vm_compute; discriminate.
  - reflexivity.
  - destruct (rate_limit_window (H := platform) agentKeys manifest
                empty_state burst (T0 + 60005)
                (request "t10" "n10" (T0 + 60005)))
      as (_ & Hslide & _).
    + apply empty_state_bounded.
    + repeat constructor; vm_compute; discriminate.
    + reflexivity.
    + split; [|split].
      * apply Hten. vm_compute. lia.
      * apply Hslide. vm_compute. lia.
      * exact Hb.
Defined.



Lemma unparsable_limit_lists_nothing_witness :
  get_tasks (H := platform) completed_state None (Some "abc")
  = reply 200 (BTasks 0 [])
  /\ get_receipts (H := platform) agentKeys completed_state None None
       (Some "abc")
     = reply 200 (BReceipts (publicKey agentKeys) 0 []).
Proof.
  apply (unparsable_limit_lists_nothing (H := platform) agentKeys
           completed_state None None None (Some "abc")); reflexivity.
Defined.

(** ** Where the code departs from the specification *)


(** C3. A request with a forged signature is answered 401, yet its nonce
    is on record afterwards and its requester's bucket holds its time. *)
Lemma failed_request_changes_trackers :
  (submit empty_state T0 (forged "t1" "n1" T0)).1
  = reply 401 (BError "invalid_signature" None)
  /\ seenNonces empty_state !! "n1" = None
  /\ seenNonces (submit empty_state T0 (forged "t1" "n1" T0)).2 !! "n1"
     = Some T0
  /\ rateBuckets empty_state !! requesterKey = None
  /\ rateBuckets (submit empty_state T0 (forged "t1" "n1" T0)).2
       !! requesterKey
     = Some [T0].
Proof. by_running. Qed.

(** C5. The first request of the burst was accepted at [T0] with nonce
    [n0]; sent again ten milliseconds later, unchanged, it is answered 429
    [rate_limited], not [invalid_nonce]. *)
Lemma replay_answered_rate_limited :
  code (submit empty_state T0 (request "t0" "n0" T0)).1 = 201
  /\ seenNonces busy_state !! "n0" = Some T0
  /\ (submit busy_state (T0 + 10) (request "t0" "n0" T0)).1
     = reply 429 (BError "rate_limited" None).
Proof. by_running. Qed.

(** C6. A request stamped ten minutes in the past, sent by a requester
    that has used up its rate, is answered 429 [rate_limited], not
    [invalid_nonce]. *)
Lemma stale_request_answered_rate_limited :
  Math_abs
    (js_sub (Num (T0 + 10))
       (@Date_getTime platform
          (str (timestamp (request "t10" "n10" (T0 - 600000))))))
  = Num 600010
  /\ (submit busy_state (T0 + 10) (request "t10" "n10" (T0 - 600000))).1
     = reply 429 (BError "rate_limited" None).
Proof. by_running. Qed.

(** C7. A request with a forged signature that reuses the nonce of an
    accepted request is answered 400 [invalid_nonce], not
    [invalid_signature]. *)
Lemma forged_replay_answered_invalid_nonce :
  verifySignature (H := platform)
    (messageToVerify (forged "t2" "n1" (T0 + 10))) "AAAA" requesterKey
  = false
  /\ (submit accepted_state (T0 + 10) (forged "t2" "n1" (T0 + 10))).1
     = reply 400 (BError "invalid_nonce" None).
Proof. by_running. Qed.

(** C8. After the ten counted requests of the burst, an eleventh request
    of the same identity that lacks its description is answered 400
    [missing_fields], not [rate_limited]. *)
Lemma incomplete_request_answered_missing_fields :
  counted_in_trace (H := platform) manifest agentKeys empty_state burst
    requesterKey (T0 + 10) = 10%nat
  /\ requester_id (incomplete "t10" "n10" (T0 + 10)) = Some requesterKey
  /\ (submit busy_state (T0 + 10) (incomplete "t10" "n10" (T0 + 10))).1
     = reply 400 (BError "missing_fields" None).
Proof. by_running. Qed.

(** C10. With [limit] present but empty, [parseInt] gives NaN and yet
    both listings return their one record. *)
Lemma empty_limit_lists_everything :
  @parseInt platform "" = NaN
  /\ total_of (get_tasks (H := platform) completed_state None (Some ""))
     = Some 1%nat
  /\ total_of (get_receipts (H := platform) agentKeys completed_state None
                 None (Some ""))
     = Some 1%nat.
Proof. by_running. Qed.

(** * Further properties of the server and its callers *)

Section Further.
Context `{Platform}.
Variable agentKeys : AgentKeys.
Variable manifest : Manifest.

(** ** What one event does to the two directories *)

Lemma js_or_truthy (a b : JsVal) : truthy b = true -> truthy (js_or a b) = true.
Proof. intros Hb. unfold js_or. by destruct (truthy a) eqn:Ha. Qed.

(** An event leaves the directories alone, or writes one new pending
    task, or completes one stored task and writes its receipt, or rejects
    one stored task. *)
Lemma handle_stores st t e :
  let st' := (handle agentKeys manifest st t e).2 in
  (tasks st' = tasks st /\ receipts st' = receipts st)
  \/ (exists b,
        e = PostInbox b /\ code (post_inbox manifest st t b).1 = 201
        /\ tasks st' = <[str (task_id b) := new_task b t]> (tasks st)
        /\ receipts st' = receipts st)
  \/ (exists id old result proof receipt,
        e = PostTaskComplete id result proof
        /\ tasks st !! id = Some old /\ truthy result = true
        /\ receipt_matches agentKeys (complete_task old result receipt t)
             receipt
        /\ tasks st'
           = <[t_task_id old := complete_task old result receipt t]> (tasks st)
        /\ receipts st' = <[t_task_id old := receipt]> (receipts st))
  \/ (exists id old reason,
        e = PostTaskReject id reason
        /\ tasks st !! id = Some old
        /\ tasks st' = <[t_task_id old := reject_task old reason t]> (tasks st)
        /\ receipts st' = receipts st).
Proof.
  destruct e as [b|id|id result proof|id reason|a ty l|s l|];
    try (left; done).
  - cbv zeta. rewrite handle_post_inbox.
    pose proof (post_inbox_outcome manifest st t b) as Hout.
    destruct (post_inbox manifest st t b) as [r st'] eqn:Hp. simpl in *.
    destruct Hout; try (left; done).
    right. left. exists b. by rewrite Hp.
  - simpl. unfold post_task_complete, loadTask.
    destruct (tasks st !! id) as [old|] eqn:Hold; [|by left].
    destruct (truthy result) eqn:Hres; [|by left]. simpl.
    destruct (signMessage _ _) as [sig|]; [|by left]. simpl.
    right. right. left.
    eexists id, old, result, proof, _. repeat split; try done.
  - simpl. unfold post_task_reject, loadTask.
    destruct (tasks st !! id) as [old|] eqn:Hold; [|by left]. simpl.
    right. right. right. by exists id, old, reason.
Qed.

Lemma handle_receipts_consistent st t e :
  store_keyed st -> receipts_consistent agentKeys st ->
  receipts_consistent agentKeys (handle agentKeys manifest st t e).2.
Proof.
  intros Hk Hc.
  destruct (handle_stores st t e)
    as [[Ht Hr]|[(b & _ & _ & Ht & Hr)
       |[(id & old & result & proof & receipt & _ & Hold & _ & Hm & Ht & Hr)
        |(id & old & reason & _ & Hold & Ht & Hr)]]];
    intros k task r; rewrite Ht, Hr.
  - apply Hc.
  - destruct (decide (str (task_id b) = k)) as [<-|Hne].
    + rewrite lookup_insert_eq. by intros [= <-].
    + rewrite lookup_insert_ne by done. apply Hc.
  - destruct (decide (t_task_id old = k)) as [<-|Hne].
    + rewrite !lookup_insert_eq. intros [= <-]. simpl. by intros [= <-].
    + rewrite !lookup_insert_ne by done. apply Hc.
  - destruct (decide (t_task_id old = k)) as [<-|Hne].
    + rewrite lookup_insert_eq. intros [= <-]. simpl. intros Hrec.
      pose proof (Hk _ _ Hold) as Hid.
      destruct (Hc id old r Hold Hrec) as [Hm Hl]. by rewrite Hid.
    + rewrite lookup_insert_ne by done. apply Hc.
Qed.


Lemma handle_status_consistent st t e :
  status_consistent st ->
  status_consistent (handle agentKeys manifest st t e).2.
Proof.
  intros Hc.
  destruct (handle_stores st t e)
    as [[Ht Hr]|[(b & _ & _ & Ht & Hr)
       |[(id & old & result & proof & receipt & _ & Hold & Hres & Hm & Ht & Hr)
        |(id & old & reason & _ & Hold & Ht & Hr)]]];
    intros k task; rewrite Ht.
  - apply Hc.
  - destruct (decide (str (task_id b) = k)) as [<-|Hne].
    + rewrite lookup_insert_eq. by intros [= <-].
    + rewrite lookup_insert_ne by done. apply Hc.
  - destruct (decide (t_task_id old = k)) as [<-|Hne].
    + rewrite lookup_insert_eq. intros [= <-]. simpl. eauto.
    + rewrite lookup_insert_ne by done. apply Hc.
  - destruct (decide (t_task_id old = k)) as [<-|Hne].
    + rewrite lookup_insert_eq. intros [= <-]. simpl.
      by apply js_or_truthy.
    + rewrite lookup_insert_ne by done. apply Hc.
Qed.

(** X2. Along every run the content of a task file follows its status: a
    pending task has a null result, no receipt and no rejection reason; a
    completed task has a truthy result and a receipt; a rejected task has
    a truthy rejection reason. *)
Theorem status_stays_consistent evs st :
  status_consistent st ->
  status_consistent (run agentKeys manifest st evs).
Proof.
  revert st. induction evs as [|[t e] evs IH]; intros st Hc; [done|].
  simpl. apply IH. by apply handle_status_consistent.
Qed.

Lemma handle_files st t e :
  dom (tasks st) ⊆ dom (tasks (handle agentKeys manifest st t e).2)
  /\ dom (receipts st) ⊆ dom (receipts (handle agentKeys manifest st t e).2).
Proof.
  destruct (handle_stores st t e)
    as [[Ht Hr]|[(b & _ & _ & Ht & Hr)
       |[(id & old & result & proof & receipt & _ & _ & _ & _ & Ht & Hr)
        |(id & old & reason & _ & _ & Ht & Hr)]]];
    rewrite Ht, Hr, ?dom_insert_L; set_solver.
Qed.

(** X3. No event removes a file: the task ids and the receipt ids on
    disk before a run are still there after it. *)
Theorem files_never_removed evs st :
  dom (tasks st) ⊆ dom (tasks (run agentKeys manifest st evs))
  /\ dom (receipts st) ⊆ dom (receipts (run agentKeys manifest st evs)).
Proof.
  revert st. induction evs as [|[t e] evs IH]; intros st; [done|].
  simpl. destruct (IH (handle agentKeys manifest st t e).2) as [IHt IHr].
  destruct (handle_files st t e) as [Ht Hr]. split; by etrans.
Qed.

(** ** Submission over an existing id *)


(** ** Completion and rejection, exit by exit *)



(** ** Sorting and slicing *)




Section Sorted.
Context {A : Type} (key : A -> string).

Let cmp (a b : A) : JsNum := newest_first (key a) (key b).




End Sorted.


Lemma slice0_take {A} (l : list A) n :
  slice0 l (Num n) = take (kept (length l) n) l.
Proof.
  unfold slice0, kept. destruct (n <? 0); [done|].
  destruct (decide (Z.to_nat n <= length l)%nat).
  - by rewrite Nat.min_l.
  - rewrite Nat.min_r by lia. rewrite firstn_all. apply take_ge. lia.
Qed.






(** ** The two listings *)



(** X9. A [limit] that [parseInt] reads as the number [n] cuts each
    listing to a prefix of the unlimited one: its first [n] items when
    [n] is not negative (all of them when there are fewer), and all but
    its last [-n] items when [n] is negative (none when there are
    fewer); the total reported is the length of that prefix. *)
Theorem limit_keeps_prefix st status agent type limit n :
  present limit = true ->
  parseInt (str limit) = Num n ->
  let rows := listed_tasks (get_tasks st status None) in
  let items := listed_receipts (get_receipts agentKeys st agent type None) in
  get_tasks st status limit
  = reply 200 (BTasks (kept (length rows) n) (take (kept (length rows) n) rows))
  /\ get_receipts agentKeys st agent type limit
     = reply 200 (BReceipts (publicKey agentKeys) (kept (length items) n)
                    (take (kept (length items) n) items))
  /\ (0 <= n -> kept (length rows) n = Nat.min (Z.to_nat n) (length rows))
  /\ (n < 0 ->
      kept (length rows) n = (length rows - Z.to_nat (- n))%nat).
Proof.
  intros Hp Hn. unfold get_tasks, get_receipts. rewrite Hp, Hn.
  cbv zeta. unfold present, listed_tasks, listed_receipts, reply, body.
  rewrite !slice0_take. rewrite !length_take.
  assert (forall len, Nat.min (kept len n) len = kept len n) as Hk.
  { intros len. unfold kept. destruct (n <? 0) eqn:Hneg; [|lia].
    apply Z.ltb_lt in Hneg. lia. }
  rewrite !Hk. repeat split.
  - intros Hpos. unfold kept. by apply Z.ltb_ge in Hpos as ->.
  - intros Hneg. unfold kept. apply Z.ltb_lt in Hneg as Hneg'. rewrite Hneg'.
    lia.
Qed.

(** ** Replays and the pruning timer *)

Lemma handle_nonces st t e n :
  let sn := seenNonces st in
  let sn' := seenNonces (handle agentKeys manifest st t e).2 in
  sn' !! n = sn !! n
  \/ (sn !! n = None /\ sn' !! n = Some t)
  \/ (e = PruneTimer /\ sn' !! n = None
      /\ exists t', sn !! n = Some t' /\ NONCE_EXPIRY_MS * 2 < t - t').
Proof.
  cbv zeta.
  destruct e as [b|id|id result proof|id reason|a ty l|s l|]; try by left.
  - rewrite handle_post_inbox.
    destruct (post_inbox_outcome manifest st t b); try (by left); simpl.
    all: destruct (decide (str (nonce b) = n)) as [<-|Hne];
      [right; left; by rewrite lookup_insert_eq
      |left; by rewrite lookup_insert_ne].
  - simpl.
    pose proof (post_task_complete_trackers agentKeys st t id result proof)
      as [_ Hs].
    destruct (post_task_complete _ _ _ _ _ _). simpl in *. left. by rewrite Hs.
  - simpl. pose proof (post_task_reject_trackers st t id reason) as [_ Hs].
    destruct (post_task_reject _ _ _ _). simpl in *. left. by rewrite Hs.
  - simpl. destruct (seenNonces st !! n) as [t'|] eqn:Hn.
    + destruct (decide (NONCE_EXPIRY_MS * 2 < t - t')) as [Hold|Hyoung].
      * right. right. split; [done|]. split; [|eauto].
        apply map_lookup_filter_None. right. intros x Hx. simpl.
        rewrite Hn in Hx. injection Hx as <-. tauto.
      * left. apply map_lookup_filter_Some. by rewrite Hn.
    + left. apply map_lookup_filter_None. by left.
Qed.

(** While the clock does not go back, a nonce first recorded at [t0] is
    on record, or the clock has passed [t0] by more than twice the
    expiry. *)
Lemma run_nonce_or_late evs st tau n t0 :
  nondecreasing tau evs -> t0 <= tau ->
  (exists t', seenNonces st !! n = Some t' /\ t0 <= t')
  \/ NONCE_EXPIRY_MS * 2 < tau - t0 ->
  (exists t', seenNonces (run agentKeys manifest st evs) !! n = Some t'
              /\ t0 <= t')
  \/ NONCE_EXPIRY_MS * 2 < end_time tau evs - t0.
Proof.
  revert st tau. induction evs as [|[t e] evs IH]; intros st tau Hm Ht0 Hj.
  - done.
  - destruct Hm as [Htau Hm]. simpl.
    change (end_time tau ((t, e) :: evs)) with (end_time t evs).
    apply IH; [done|lia|].
    destruct (handle_nonces st t e n)
      as [Heq|[[Hnone Hnew]|(_ & Hgone & t' & Ht' & Hold)]].
    + rewrite Heq. destruct Hj as [Hj|Hj]; [by left|right; lia].
    + left. exists t. split; [done|lia].
    + right. destruct Hj as [(t'' & Ht'' & Hle)|Hj]; [|lia].
      rewrite Ht' in Ht''. injection Ht'' as <-. lia.
Qed.

Lemma accepted_in_window st now b :
  code (post_inbox manifest st now b).1 = 201 ->
  js_gt (Math_abs (js_sub (Num now) (Date_getTime (str (timestamp b)))))
    (Num NONCE_EXPIRY_MS) = false.
Proof.
  intros Hc. destruct (js_gt _ _) eqn:Hw; [|done].
  destruct (has_required_fields b) eqn:Hf.
  2: { by rewrite post_inbox_missing in Hc. }
  destruct (decide (RATE_MAX_REQUESTS
                    <= counted st (str (requester_id b)) now)%nat).
  { by rewrite post_inbox_limited in Hc. }
  rewrite post_inbox_not_fresh in Hc; [done|split; [done|lia]|].
  unfold checkNonce. by rewrite Hw.
Qed.

(** X10. As long as the server's clock never goes back, a request whose
    timestamp parses to a time and that was accepted once is never
    accepted again: any later request with the same nonce and the same
    timestamp is refused, whether the pruning timer has dropped the nonce
    in between or not. *)
Theorem dated_request_accepted_once st0 t0 b0 ts evs now b :
  code (post_inbox manifest st0 t0 b0).1 = 201 ->
  Date_getTime (str (timestamp b0)) = Num ts ->
  nondecreasing t0 evs ->
  end_time t0 evs <= now ->
  str (nonce b) = str (nonce b0) ->
  str (timestamp b) = str (timestamp b0) ->
  code (post_inbox manifest
          (run agentKeys manifest (post_inbox manifest st0 t0 b0).2 evs)
          now b).1 <> 201.
Proof.
  intros Hacc Hts Hm Hend Hn Hstamp Hc.
  pose proof (accepted_in_window _ _ _ Hacc) as Hw0.
  rewrite Hts in Hw0. simpl in Hw0. apply Z.ltb_ge in Hw0.
  pose proof (accepted_in_window _ _ _ Hc) as Hw.
  rewrite Hstamp, Hts in Hw. simpl in Hw. apply Z.ltb_ge in Hw.
  assert ((exists t', seenNonces (post_inbox manifest st0 t0 b0).2
                        !! str (nonce b0) = Some t' /\ t0 <= t')
          \/ NONCE_EXPIRY_MS * 2 < t0 - t0) as Hj.
  { left. exists t0. split; [|lia]. by apply accepted_records_nonce. }
  destruct (run_nonce_or_late evs _ t0 _ t0 Hm (Z.le_refl t0) Hj)
    as [(t' & Ht' & _)|Hlate].
  - destruct (post_inbox_outcome manifest
                (run agentKeys manifest (post_inbox manifest st0 t0 b0).2 evs)
                now b) as [| | | | |_ Hfresh _ _]; try done.
    rewrite Hn, Ht' in Hfresh. done.
  - unfold NONCE_EXPIRY_MS in *. lia.
Qed.

(** X11. A request whose timestamp does not parse has no such
    protection: once the pruning timer has fired more than twice the
    expiry after the request was accepted, the very same request, sent
    again, is accepted again by a server whose rate limiter lets it
    through. *)
Theorem undated_request_accepted_twice st0 t0 b tp now :
  code (post_inbox manifest st0 t0 b).1 = 201 ->
  Date_getTime (str (timestamp b)) = NaN ->
  NONCE_EXPIRY_MS * 2 < tp - t0 ->
  let st := run agentKeys manifest (post_inbox manifest st0 t0 b).2
              [(tp, PruneTimer)] in
  limiter_passes st now b ->
  code (post_inbox manifest st now b).1 = 201.
Proof.
  intros Hacc Hnan Hold st [Hf Hlt].
  assert (signature_ok b = true /\ str (task_type b) ∈ capabilities manifest)
    as [Hs Hcap].
  { destruct (post_inbox_outcome manifest st0 t0 b); try done. }
  rewrite post_inbox_accepted; try done.
  - by rewrite Hnan.
  - unfold st. simpl. apply map_lookup_filter_None. right.
    intros t' Ht'. rewrite accepted_records_nonce in Ht' by done.
    injection Ht' as <-. simpl. lia.
Qed.

(** ** What a submission touches *)


(** ** Restarting the server *)

Lemma foldl_insert_lookup (l : list (string * Z)) (m0 : gmap string Z) k :
  NoDup l.*1 ->
  foldl (fun m kv => <[kv.1 := kv.2]> m) m0 l !! k
  = match (list_to_map l : gmap string Z) !! k with
    | Some v => Some v
    | None => m0 !! k
    end.
Proof.
  revert m0. induction l as [|[k1 v1] l IH]; intros m0 Hnd; simpl.
  - by rewrite lookup_empty.
  - apply NoDup_cons in Hnd as [Hk1 Hnd]. rewrite IH by done.
    destruct (decide (k1 = k)) as [<-|Hne].
    + rewrite lookup_insert_eq.
      by rewrite (not_elem_of_list_to_map_1 _ _ Hk1), lookup_insert_eq.
    + by rewrite !lookup_insert_ne.
Qed.

(** Reading back what [[...map]] wrote gives the map. *)
Lemma Map_of_entries_to_list (m : gmap string Z) :
  Map_of_entries (map_to_list m) = m.
Proof.
  apply map_eq. intros k. unfold Map_of_entries.
  rewrite foldl_insert_lookup by apply NoDup_fst_map_to_list.
  rewrite list_to_map_to_list, lookup_empty. by destruct (m !! k).
Qed.

(** X13. When the timer has fired at [now] and the server then restarts
    on the file it wrote, the server knows exactly the nonces that
    survived the pruning: every nonce first seen no more than twice the
    expiry before [now] is still on record with its time.  All rate
    buckets are empty, so no request is answered [rate_limited] right
    after the restart; tasks and receipts are what they were.  A server
    that starts without a readable nonce file knows no nonce. *)
Theorem restart_after_tick st now :
  let st1 := (persistNonces st now).1 in
  let st2 := restart st1 (persistNonces st now).2 in
  seenNonces st2 = seenNonces st1
  /\ (forall n t, seenNonces st !! n = Some t ->
                  now - t <= NONCE_EXPIRY_MS * 2 ->
                  seenNonces st2 !! n = Some t)
  /\ rateBuckets st2 = ∅
  /\ (forall now' b,
        error_kind (post_inbox manifest st2 now' b).1 <> Some "rate_limited")
  /\ tasks st2 = tasks st /\ receipts st2 = receipts st
  /\ seenNonces (restart st NoFile) = ∅
  /\ seenNonces (restart st Unreadable) = ∅.
Proof.
  cbv zeta. unfold persistNonces, restart, bootstrap. simpl.
  rewrite Map_of_entries_to_list. repeat split.
  - intros n t Hn Hyoung. apply map_lookup_filter_Some. split; [done|].
    simpl. lia.
  - intros now' b Hk.
    destruct (post_inbox_outcome manifest
                {| rateBuckets := ∅;
                   seenNonces :=
                     filter (fun kv : string * Z =>
                               ~ (NONCE_EXPIRY_MS * 2 < now - kv.2))
                       (seenNonces st);
                   tasks := tasks st; receipts := receipts st |} now' b)
      as [|_ Hge| | | |]; try done.
    unfold counted, recent in Hge. simpl in Hge.
    rewrite lookup_empty in Hge. simpl in Hge.
    unfold RATE_MAX_REQUESTS in Hge. lia.
Qed.

(** ** The client *)

(** X14. Under keys that form an Ed25519 pair, [sendTask] produces a
    body whose canonical fields are exactly the message it signed, so the
    server's signature check passes.  If moreover the body's required
    fields are non-empty, the requester is under its rate limit, the
    nonce is new to the server, the client's clock reading survives the
    trip through its ISO string and is within five minutes of the
    server's, and the task type is one of the manifest's, the server
    answers 201 and holds the task as pending. *)
Theorem sendTask_accepted keys taskId nonce0 tc taskType descr opts sk pk :
  decodeBase64 (secretKey keys) = Some sk ->
  decodeBase64 (publicKey keys) = Some pk ->
  (forall m, exists sig,
      nacl_sign_detached m sk = Some sig
      /\ decodeBase64 (encodeBase64 sig) = Some sig
      /\ nacl_sign_detached_verify m sig pk = Some true) ->
  exists b,
    sendTask keys taskId nonce0 tc taskType descr opts = Some b
    /\ messageToVerify b
       = client_message keys taskId nonce0 tc taskType descr opts
    /\ signature_ok b = true
    /\ forall st now,
        has_required_fields b = true ->
        (counted st (publicKey keys) now < RATE_MAX_REQUESTS)%nat ->
        seenNonces st !! nonce0 = None ->
        Date_getTime (Date_toISOString tc) = Num tc ->
        Z.abs (now - tc) <= NONCE_EXPIRY_MS ->
        taskType ∈ capabilities manifest ->
        (post_inbox manifest st now b).1
        = reply 201 (BAccepted "accepted" taskId
                       ("/tasks/" ++ taskId ++ "/status"))
        /\ get_task_status (post_inbox manifest st now b).2 taskId
           = reply 200 (BStatus taskId pending taskType
                          (Date_toISOString now) (Date_toISOString now)
                          JNull None).
Proof.
  intros Hsk Hpk Hpair. unfold sendTask, signMessage. rewrite Hsk.
  destruct (Hpair (TextEncoder_encode (JSON_stringify
              (client_message keys taskId nonce0 tc taskType descr opts))))
    as (sig & -> & Hdec & Hver).
  eexists. split; [done|]. split; [done|].
  assert (signature_ok
            {| task_id := Some taskId; requester_id := Some (publicKey keys);
               task_type := Some taskType; description := Some descr;
               params := js_or (opt_params opts) JNull;
               payment_offer :=
                 js_or (opt_payment_offer opts) default_payment_offer;
               callback_url := js_or (opt_callback_url opts) JNull;
               deadline := js_or (opt_deadline opts) JNull;
               nonce := Some nonce0;
               timestamp := Some (Date_toISOString tc);
               signature := Some (encodeBase64 sig) |} = true) as Hok.
  { apply verifySignature_true. simpl. eauto. }
  split; [done|]. intros st now Hf Hc Hn Hrt Hw Hcap.
  rewrite post_inbox_accepted; try done.
  - split; [done|]. unfold get_task_status, loadTask, saveTask. simpl.
    by rewrite lookup_insert_eq.
  - simpl. rewrite Hrt. simpl. by apply Z.ltb_ge.
Qed.

(** ** The file-drop bridge *)

(** X15. Under keys that form an Ed25519 pair and with the network up,
    [submitTask] posts a body that passes the server's signature check.
    If the dropped file names a task type of the manifest, the body's
    required fields are non-empty, the requester is under its rate limit,
    the nonce is new, and the bridge's clock reading survives the trip
    through its ISO string and is within five minutes of the server's,
    then the inbox answers 201, the server holds the task as pending and
    the bridge writes a tracking file with status [accepted] for it. *)
Theorem dropped_task_accepted keys d file raw w sk pk :
  d_network d = true ->
  decodeBase64 (secretKey keys) = Some sk ->
  decodeBase64 (publicKey keys) = Some pk ->
  (forall m, exists sig,
      nacl_sign_detached m sk = Some sig
      /\ decodeBase64 (encodeBase64 sig) = Some sig
      /\ nacl_sign_detached_verify m sig pk = Some true) ->
  exists sig,
    signMessage keys (bridge_message keys d raw) = Some sig
    /\ (has_required_fields (bridge_body keys d raw sig) = true ->
        signature_ok (bridge_body keys d raw sig) = true)
    /\ (has_required_fields (bridge_body keys d raw sig) = true ->
        (counted (server w) (publicKey keys) (d_server_now d)
         < RATE_MAX_REQUESTS)%nat ->
        seenNonces (server w) !! d_nonce d = None ->
        Date_getTime (Date_toISOString (d_now d)) = Num (d_now d) ->
        Z.abs (d_server_now d - d_now d) <= NONCE_EXPIRY_MS ->
        str (raw_task_type raw) ∈ capabilities manifest ->
        exists w',
          submitTask manifest keys d file raw w
          = Some (Some (reply 201
                          (BAccepted "accepted" (d_task_id d)
                             ("/tasks/" ++ d_task_id d ++ "/status"))), w')
          /\ results w' !! (basename_json file ++ "-tracking.json")%string
             = Some (new_tracking d file (Some "accepted"))
          /\ processed w' = processed w
          /\ get_task_status (server w') (d_task_id d)
             = reply 200 (BStatus (d_task_id d) pending
                            (str (raw_task_type raw))
                            (Date_toISOString (d_server_now d))
                            (Date_toISOString (d_server_now d)) JNull None)).
Proof.
  intros Hnet Hsk Hpk Hpair. unfold submitTask, signMessage. rewrite Hsk.
  destruct (Hpair (TextEncoder_encode (JSON_stringify
              (bridge_message keys d raw))))
    as (sig & Hsig & Hdec & Hver).
  rewrite Hsig. exists (encodeBase64 sig). split; [done|].
  assert (has_required_fields (bridge_body keys d raw (encodeBase64 sig))
          = true ->
          signature_ok (bridge_body keys d raw (encodeBase64 sig)) = true)
    as Hok.
  { intros Hf. apply verifySignature_true. simpl. exists sig, pk.
    repeat split; try done.
    unfold has_required_fields in Hf. simpl in Hf.
    unfold bridge_message in Hver. revert Hver.
    unfold messageToVerify, bridge_body. simpl.
    destruct (raw_task_type raw) as [ty|]; [|by rewrite !andb_false_r in Hf].
    destruct (raw_description raw) as [de|];
      [|by rewrite !andb_false_r in Hf].
    done. }
  split; [done|]. intros Hf Hc Hn Hrt Hw Hcap. rewrite Hnet. simpl negb.
  cbv iota. rewrite post_inbox_accepted; try done.
  2: { simpl. rewrite Hrt. simpl. by apply Z.ltb_ge. }
  2: { by apply Hok. }
  eexists. split; [reflexivity|]. simpl.
  rewrite !lookup_insert_eq. repeat split.
  unfold get_task_status, loadTask. simpl. by rewrite lookup_insert_eq.
Qed.

Lemma markProcessed_elem f g w :
  g ∈ processed (markProcessed f w) <-> g ∈ processed w \/ g = f.
Proof.
  unfold markProcessed. simpl. case_bool_decide as Hin.
  - split; [by left|]. intros [?| ->]; done.
  - rewrite elem_of_app, list_elem_of_singleton. tauto.
Qed.

Lemma submitTask_processed keys d f raw w res w' :
  submitTask manifest keys d f raw w = Some (res, w') ->
  processed w' = processed w.
Proof.
  unfold submitTask. destruct (signMessage _ _); [|done].
  destruct (negb _); [by intros [= _ <-]|].
  destruct (post_inbox _ _ _ _). by intros [= _ <-].
Qed.

(** The loop marks every file it got through, whatever the inbox
    answered, and stops in front of the first file that throws. *)
Lemma submitFiles_processed keys draw files w :
  let w' := (submitFiles manifest keys draw files w).1 in
  let finished := (submitFiles manifest keys draw files w).2 in
  exists done rest,
    files = done ++ rest
    /\ (forall f, f ∈ processed w' <-> f ∈ processed w \/ f ∈ done.*1)
    /\ (finished = true -> rest = []).
Proof.
  cbv zeta. revert w. induction files as [|[f c] files IH]; intros w.
  - exists [], []. simpl. repeat split; try done.
    + by left.
    + intros [?|Hin]; [done|]. by apply elem_of_nil in Hin.
  - simpl. destruct c as [raw|].
    2: { exists [], ((f, None) :: files). simpl. repeat split; try done.
         - by left.
         - intros [?|Hin]; [done|]. by apply elem_of_nil in Hin. }
    destruct (submitTask manifest keys (draw f) f raw w) as [[res w1]|] eqn:Hs.
    2: { exists [], ((f, Some raw) :: files). simpl.
         repeat split; try done.
         - by left.
         - intros [?|Hin]; [done|]. by apply elem_of_nil in Hin. }
    destruct (IH (markProcessed f w1)) as (done & rest & -> & Hp & Hfin).
    exists ((f, Some raw) :: done), rest. repeat split; try done.
    + intros Hin. apply Hp in Hin as [Hin|Hin].
      * apply markProcessed_elem in Hin as [Hin| ->].
        -- left. by rewrite <- (submitTask_processed _ _ _ _ _ _ _ Hs).
        -- right. simpl. apply list_elem_of_here.
      * right. simpl. by apply list_elem_of_further.
    + intros [Hin|Hin]; apply Hp.
      * left. apply markProcessed_elem. left.
        by rewrite (submitTask_processed _ _ _ _ _ _ _ Hs).
      * simpl in Hin. apply elem_of_cons in Hin as [->|Hin].
        -- left. apply markProcessed_elem. by right.
        -- by right.
Qed.

Lemma pollResults_frame now fetch w :
  processed (pollResults now fetch w) = processed w
  /\ server (pollResults now fetch w) = server w.
Proof. done. Qed.

Lemma filter_eligible_none (dir : list (string * option DropFile)) done :
  (forall fc, fc ∈ dir -> eligible done fc.1 = true -> fc.1 ∈ done) ->
  List.filter (fun fc : string * option DropFile => eligible done fc.1) dir
  = [].
Proof.
  intros Hall. induction dir as [|fc dir IH]; [done|]. simpl.
  destruct (eligible done fc.1) eqn:He.
  - exfalso. pose proof (Hall fc (list_elem_of_here _ _) He) as Hin.
    unfold eligible in He. rewrite bool_decide_true in He by done.
    by rewrite andb_false_r in He.
  - apply IH. intros fc' Hin. apply Hall. by apply list_elem_of_further.
Qed.

(** X16. When every dropped file parses and signing works, a tick marks
    every file it picked up as processed, whatever the inbox answered
    and even when the network failed; a later tick on the same directory
    posts nothing: it leaves the server and the processed set as they
    are. *)
Theorem dropped_file_posted_once keys dir draw now fetch w :
  Forall (fun fc : string * option DropFile => is_Some fc.2) dir ->
  (forall m, is_Some (signMessage keys m)) ->
  let w1 := watch_tick manifest keys draw dir now fetch w in
  (forall fc, fc ∈ dir -> eligible (processed w) fc.1 = true ->
              fc.1 ∈ processed w1)
  /\ (forall draw' now' fetch',
        let w2 := watch_tick manifest keys draw' dir now' fetch' w1 in
        server w2 = server w1 /\ processed w2 = processed w1).
Proof.
  intros Hparse Hsign.
  set (files := List.filter (fun fc : string * option DropFile =>
                               eligible (processed w) fc.1) dir).
  assert (exists w',
            watch_tick manifest keys draw dir now fetch w
            = pollResults now fetch w'
            /\ forall f, f ∈ processed w' <->
                         f ∈ processed w \/ f ∈ files.*1)
    as (w' & Hw1 & Hp).
  { unfold watch_tick. fold files.
    pose proof (submitFiles_processed keys draw files w) as Hloop.
    cbv zeta in Hloop.
    assert ((submitFiles manifest keys draw files w).2 = true) as Hfin.
    { assert (Forall (fun fc : string * option DropFile => is_Some fc.2)
                files) as Hf.
      { apply Forall_forall. intros fc Hin. unfold files in Hin.
        apply list_elem_of_In, filter_In in Hin as [Hin _].
        apply list_elem_of_In in Hin.
        by eapply Forall_forall in Hparse. }
      clear Hloop. generalize w. induction files as [|[f c] fs IH]; [done|].
      intros w0. apply Forall_cons in Hf as [[raw Hc] Hf]. simpl in Hc.
      subst c. simpl. unfold submitTask.
      destruct (Hsign (bridge_message keys (draw f) raw)) as [sig ->].
      destruct (negb _); [by apply IH|].
      destruct (post_inbox _ _ _ _). by apply IH. }
    destruct (submitFiles manifest keys draw files w) as [w' fin].
    simpl in *. subst fin.
    destruct Hloop as (done & rest & Hfiles & Hp & Hrest).
    rewrite (Hrest eq_refl), app_nil_r in Hfiles. subst done.
    by exists w'. }
  cbv zeta. rewrite Hw1.
  assert (forall fc, fc ∈ dir -> eligible (processed w) fc.1 = true ->
                     fc.1 ∈ processed w') as Hmarked.
  { intros fc Hin He. apply Hp. right. apply list_elem_of_fmap.
    exists fc. split; [done|]. unfold files.
    apply list_elem_of_In, filter_In. split; [|done].
    by apply list_elem_of_In. }
  split; [done|]. intros draw' now' fetch'. unfold watch_tick.
  rewrite filter_eligible_none; [done|].
  intros fc Hin He. simpl.
  destruct (eligible (processed w) fc.1) eqn:He0; [by apply Hmarked|].
  unfold eligible in He, He0. simpl in He.
  destruct (ends_with fc.1 ".json" && String.prefix "aip-" fc.1);
    simpl in *; [|done].
  apply negb_false_iff, bool_decide_eq_true in He0.
  apply Hp. by left.
Qed.

(** X17. A tick whose first file to pick up does not parse changes
    nothing at all: no file is posted or marked, and the results are not
    polled.  The file is picked up first again by every later tick, so
    the files listed after it are never posted. *)
Theorem unparsable_drop_blocks_the_bridge keys draw dir now fetch w f rest :
  List.filter (fun fc : string * option DropFile =>
                 eligible (processed w) fc.1) dir
  = (f, None) :: rest ->
  watch_tick manifest keys draw dir now fetch w = w
  /\ forall n : nat,
       Nat.iter n (watch_tick manifest keys draw dir now fetch) w = w.
Proof.
  intros Hfirst.
  assert (watch_tick manifest keys draw dir now fetch w = w) as Htick.
  { unfold watch_tick. by rewrite Hfirst. }
  split; [done|]. induction n as [|n IH]; [done|]. simpl. by rewrite IH.
Qed.

Lemma poll_one_cases answer now tr :
  poll_one answer now tr = tr
  \/ (k_status tr <> "completed"
      /\ exists data,
          answer = Some data /\ data_status data = Some "completed"
          /\ poll_one answer now tr
             = {| k_task_id := k_task_id tr;
                  k_status := "completed";
                  k_status_url := k_status_url tr;
                  k_submitted := k_submitted tr;
                  k_source_file := k_source_file tr;
                  k_result := data_result data;
                  k_receipt := data_receipt data;
                  k_completed := Some (Date_toISOString now) |}).
Proof.
  unfold poll_one. destruct (String.eqb_spec (k_status tr) "completed");
    [by left|].
  destruct answer as [data|]; [|by left].
  destruct (data_status data) as [s|] eqn:Hs; [|by left].
  destruct (String.eqb_spec s "completed") as [->|Hne].
  - right. split; [done|]. by exists data.
  - left. destruct s as [|a s]; [done|].
    repeat (first [ done
                  | match goal with
                    | |- context [match ?x with _ => _ end] =>
                        is_var x; destruct x
                    end ]).
Qed.

(** The status route says [completed] exactly for a task whose file
    does. *)
Lemma status_route_completed st id :
  data_status (get_task_status st id) = Some "completed"
  <-> exists t, tasks st !! id = Some t /\ t_status t = completed.
Proof.
  unfold get_task_status, loadTask.
  destruct (tasks st !! id) as [t|]; simpl.
  - split.
    + intros Hs. exists t. split; [done|]. by destruct (t_status t).
    + intros (t' & [= <-] & ->). done.
  - split; [done|]. by intros (t' & ? & _).
Qed.

(** X18. Polling writes tracking files only: the server and the
    processed set are as before, a file that is not named
    [...-tracking.json] or that says [completed] is left as it is, and a
    tracking file changes only by becoming [completed], keeping its task
    id, URL, submission time and source file.  When the answer it got is
    the one of the status route of a server whose stores are consistent,
    for a task id [id], the file becomes completed if and only if the
    server's task [id] is completed, and it then holds that task's
    result and a receipt for [id] whose [result_hash] is the hash of that
    result. *)
Theorem poll_copies_completed now fetch w :
  store_keyed (server w) ->
  receipts_consistent agentKeys (server w) ->
  status_consistent (server w) ->
  let w' := pollResults now fetch w in
  server w' = server w /\ processed w' = processed w
  /\ forall f tr,
      results w !! f = Some tr ->
      exists tr',
        results w' !! f = Some tr'
        /\ (k_status tr = "completed" -> tr' = tr)
        /\ (ends_with f "-tracking.json" = false -> tr' = tr)
        /\ (tr' <> tr ->
            k_status tr' = "completed" /\ k_task_id tr' = k_task_id tr
            /\ k_status_url tr' = k_status_url tr
            /\ k_submitted tr' = k_submitted tr
            /\ k_source_file tr' = k_source_file tr)
        /\ forall id,
            ends_with f "-tracking.json" = true ->
            k_status tr <> "completed" ->
            fetch f (k_status_url tr)
            = Some (get_task_status (server w) id) ->
            (k_status tr' = "completed" <->
             exists t, tasks (server w) !! id = Some t
                       /\ t_status t = completed)
            /\ forall t, tasks (server w) !! id = Some t ->
                         t_status t = completed ->
                         k_result tr' = t_result t
                         /\ exists r,
                             k_receipt tr' = Some r
                             /\ r_task_id (r_data r) = id
                             /\ r_result_hash (r_data r)
                                = sha256_hex
                                    (JSON_stringify (k_result tr')).
Proof.
  intros Hk Hrc Hsc. cbv zeta. split; [done|]. split; [done|].
  intros f tr Hf. unfold pollResults. simpl.
  rewrite map_lookup_imap, Hf. simpl. eexists. split; [reflexivity|].
  destruct (ends_with f "-tracking.json") eqn:Hname.
  2: { repeat split; try done. }
  split; [|split; [done|split]].
  - intros Hdone. unfold poll_one.
    by destruct (String.eqb_spec (k_status tr) "completed").
  - intros Hne.
    destruct (poll_one_cases (fetch f (k_status_url tr)) now tr)
      as [Hsame|(_ & data & _ & _ & Heq)]; [done|].
    by rewrite Heq.
  - intros id _ Hnot Hfetch. rewrite Hfetch.
    destruct (poll_one_cases (Some (get_task_status (server w) id)) now tr)
      as [Hsame|(_ & data & [= <-] & Hst & Heq)].
    + rewrite Hsame. split.
      * split; [done|]. intros Hcompl.
        apply status_route_completed in Hcompl. exfalso.
        revert Hsame. unfold poll_one.
        destruct (String.eqb_spec (k_status tr) "completed"); [done|].
        rewrite Hcompl. intros Heq. apply Hnot. by rewrite <- Heq.
      * intros t Ht Hcompl. exfalso.
        assert (data_status (get_task_status (server w) id)
                = Some "completed") as Hs.
        { apply status_route_completed. by exists t. }
        revert Hsame. unfold poll_one.
        destruct (String.eqb_spec (k_status tr) "completed"); [done|].
        rewrite Hs. intros Heq. apply Hnot. by rewrite <- Heq.
    + rewrite Heq. simpl. split.
      * split; [|done]. intros _. by apply status_route_completed.
      * intros t Ht Hcompl. unfold get_task_status, loadTask.
        rewrite Ht. simpl. rewrite Hcompl. simpl.
        split; [done|].
        pose proof (Hsc _ _ Ht) as Hc. rewrite Hcompl in Hc.
        destruct Hc as [_ [r Hr]].
        destruct (Hrc _ _ _ Ht Hr) as [(Hid & _ & _ & _ & Hh) _].
        exists r. repeat split; try done.
        rewrite Hid. by apply Hk.
Qed.
Lemma length_string_app (s t : string) :
  String.length (s ++ t) = (String.length s + String.length t)%nat.
Proof. induction s as [|a s IH]; simpl; [done|]. by rewrite IH. Qed.

Lemma ends_with_app s suffix : ends_with (s ++ suffix) suffix = true.
Proof.
  unfold ends_with. rewrite length_string_app.
  apply andb_true_intro. split; [apply Nat.leb_le; lia|].
  apply String.eqb_eq.
  replace (String.length s + String.length suffix - String.length suffix)%nat
    with (String.length s) by lia.
  induction s as [|a s IH]; [|done].
  change ("" +:+ suffix)%string with suffix. simpl String.length.
  clear. induction suffix as [|a t IH]; [done|]. simpl. by rewrite IH.
Qed.

Lemma submitTask_accepted_eq keys d file raw w sk pk :
  d_network d = true ->
  decodeBase64 (secretKey keys) = Some sk ->
  decodeBase64 (publicKey keys) = Some pk ->
  (forall m, exists sig,
      nacl_sign_detached m sk = Some sig
      /\ decodeBase64 (encodeBase64 sig) = Some sig
      /\ nacl_sign_detached_verify m sig pk = Some true) ->
  exists sig,
    signMessage keys (bridge_message keys d raw) = Some sig
    /\ (has_required_fields (bridge_body keys d raw sig) = true ->
        (counted (server w) (publicKey keys) (d_server_now d)
         < RATE_MAX_REQUESTS)%nat ->
        seenNonces (server w) !! d_nonce d = None ->
        Date_getTime (Date_toISOString (d_now d)) = Num (d_now d) ->
        Z.abs (d_server_now d - d_now d) <= NONCE_EXPIRY_MS ->
        str (raw_task_type raw) ∈ capabilities manifest ->
        submitTask manifest keys d file raw w
        = Some (Some (reply 201
                        (BAccepted "accepted" (d_task_id d)
                           ("/tasks/" ++ d_task_id d ++ "/status"))),
                {| processed := processed w;
                   results :=
                     <[(basename_json file ++ "-tracking.json")%string :=
                         new_tracking d file (Some "accepted")]> (results w);
                   server :=
                     saveTask
                       (new_task (bridge_body keys d raw sig)
                          (d_server_now d))
                       (recorded_state (server w)
                          (bridge_body keys d raw sig) (d_server_now d))
                |})).
Proof.
  intros Hnet Hsk Hpk Hpair. unfold submitTask, signMessage. rewrite Hsk.
  destruct (Hpair (TextEncoder_encode (JSON_stringify
              (bridge_message keys d raw))))
    as (sig & Hsig & Hdec & Hver).
  rewrite Hsig. exists (encodeBase64 sig). split; [done|].
  intros Hf Hc Hn Hrt Hw Hcap. rewrite Hnet. simpl negb. cbv iota.
  rewrite post_inbox_accepted; try done.
  - simpl. rewrite Hrt. simpl. by apply Z.ltb_ge.
  - apply verifySignature_true. simpl. exists sig, pk.
    repeat split; try done.
    unfold has_required_fields in Hf. simpl in Hf.
    unfold bridge_message in Hver. revert Hver.
    unfold messageToVerify, bridge_body. simpl.
    destruct (raw_task_type raw) as [ty|]; [|by rewrite !andb_false_r in Hf].
    destruct (raw_description raw) as [de|];
      [|by rewrite !andb_false_r in Hf].
    done.
Qed.

(** X19. A dropped task comes back.  Under the conditions in which the
    inbox accepts the dropped file, if the agent then completes the
    task with a truthy result and the next poll of the tracking file
    reaches the status route, the tracking file says [completed], names
    the dropped file and the task id the bridge drew, and holds the
    result the agent gave, with a receipt for that task id and the
    bridge's key as requester whose [result_hash] is the hash of that
    result. *)
Theorem dropped_task_comes_back
    keys d file raw w sk pk tc result proof now fetch :
  d_network d = true ->
  decodeBase64 (secretKey keys) = Some sk ->
  decodeBase64 (publicKey keys) = Some pk ->
  (forall m, exists sig,
      nacl_sign_detached m sk = Some sig
      /\ decodeBase64 (encodeBase64 sig) = Some sig
      /\ nacl_sign_detached_verify m sig pk = Some true) ->
  (forall sig, signMessage keys (bridge_message keys d raw) = Some sig ->
               has_required_fields (bridge_body keys d raw sig) = true) ->
  (counted (server w) (publicKey keys) (d_server_now d)
   < RATE_MAX_REQUESTS)%nat ->
  seenNonces (server w) !! d_nonce d = None ->
  Date_getTime (Date_toISOString (d_now d)) = Num (d_now d) ->
  Z.abs (d_server_now d - d_now d) <= NONCE_EXPIRY_MS ->
  str (raw_task_type raw) ∈ capabilities manifest ->
  truthy result = true ->
  (forall m, is_Some (signMessage agentKeys m)) ->
  let tf := (basename_json file ++ "-tracking.json")%string in
  exists res w1,
    submitTask manifest keys d file raw w = Some (Some res, w1)
    /\ let w2 :=
         server_runs manifest agentKeys
           [(tc, PostTaskComplete (d_task_id d) result proof)] w1 in
       fetch tf (AIP_STATUS_BASE ++ "/" ++ d_task_id d ++ "/status")%string
       = Some (get_task_status (server w2) (d_task_id d)) ->
       exists tr r,
         results (pollResults now fetch w2) !! tf = Some tr
         /\ k_status tr = "completed"
         /\ k_task_id tr = d_task_id d
         /\ k_source_file tr = file
         /\ k_result tr = result
         /\ k_receipt tr = Some r
         /\ r_task_id (r_data r) = d_task_id d
         /\ r_requester_id (r_data r) = publicKey keys
         /\ r_agent_id (r_data r) = publicKey agentKeys
         /\ r_result_hash (r_data r)
            = sha256_hex (JSON_stringify result).
Proof.
  intros Hnet Hsk Hpk Hpair Hf Hc Hn Hrt Hw Hcap Htr Hsign. cbv zeta.
  destruct (submitTask_accepted_eq keys d file raw w sk pk Hnet Hsk Hpk Hpair)
    as (sig & Hsig & Hsub).
  rewrite (Hsub (Hf _ Hsig) Hc Hn Hrt Hw Hcap). clear Hsub.
  eexists _, _. split; [reflexivity|].
  unfold server_runs, pollResults. simpl.
  unfold post_task_complete, loadTask. simpl. rewrite lookup_insert_eq.
  rewrite Htr. simpl negb. cbv iota.
  match goal with
  | |- context [signMessage agentKeys ?m] =>
      destruct (Hsign m) as [rs ->]
  end.
  simpl. intros Hfetch.
  rewrite map_lookup_imap, lookup_insert_eq. simpl.
  rewrite ends_with_app. unfold AIP_STATUS_BASE in Hfetch |- *.
  rewrite Hfetch.
  unfold poll_one, get_task_status, loadTask. simpl.
  rewrite !lookup_insert_eq. simpl.
  eexists _, _. split; [reflexivity|]. by simpl.
Qed.
(** ** The counts of the health route *)




End Further.

(** * The further properties at work *)

Import Walkthrough.

Lemma empty_state_receipts :
  receipts_consistent (H := platform) agentKeys empty_state.
Proof. intros k t r. unfold empty_state. simpl. by rewrite lookup_empty. Qed.

Lemma empty_state_status : status_consistent empty_state.
Proof. intros k t. unfold empty_state. simpl. by rewrite lookup_empty. Qed.

Lemma completed_state_receipts :
  receipts_consistent (H := platform) agentKeys completed_state.
Proof.
  apply (handle_receipts_consistent (H := platform) agentKeys manifest
           accepted_state (T0 + 5000)
           (PostTaskComplete "t1" finding JUndefined)).
  - apply accepted_state_keyed.
  - apply (handle_receipts_consistent (H := platform) agentKeys manifest
             empty_state T0 (PostInbox (request "t1" "n1" T0))).
    + apply empty_state_keyed.
    + apply empty_state_receipts.
Qed.

Lemma completed_state_status : status_consistent completed_state.
Proof.
  apply (handle_status_consistent (H := platform) agentKeys manifest
           accepted_state (T0 + 5000)
           (PostTaskComplete "t1" finding JUndefined)).
  apply (handle_status_consistent (H := platform) agentKeys manifest
           empty_state T0 (PostInbox (request "t1" "n1" T0))).
  apply empty_state_status.
Qed.

(** Under the toy scheme every key that decodes to some bytes signs. *)
Lemma sample_signs (keys : AgentKeys) (sk : bytes) (m : JsVal) :
  decode (secretKey keys) = Some sk -> sk <> [] ->
  is_Some (signMessage (H := platform) keys m).
Proof.
  intros Hsk Hne. unfold signMessage. simpl. rewrite Hsk.
  destruct sk; [done|]. simpl. eauto.
Qed.


Lemma status_stays_consistent_witness : status_consistent day_state.
Proof.
  apply (status_stays_consistent (H := platform) agentKeys manifest day
           empty_state).
  apply empty_state_status.
Defined.






Lemma limit_keeps_prefix_witness :
  total_of (get_tasks (H := platform) day_state None (Some "1"))
  = Some 1%nat
  /\ total_of (get_tasks (H := platform) day_state None (Some "-1"))
     = Some 1%nat
  /\ total_of (get_tasks (H := platform) day_state None (Some "-5"))
     = Some 0%nat.
Proof.
  destruct (limit_keeps_prefix (H := platform) agentKeys day_state None None
              None (Some "1") 1) as (H1 & _);
    [reflexivity|vm_compute; reflexivity|].
  destruct (limit_keeps_prefix (H := platform) agentKeys day_state None None
              None (Some "-1") (-1)) as (H2 & _);
    [reflexivity|vm_compute; reflexivity|].
  destruct (limit_keeps_prefix (H := platform) agentKeys day_state None None
              None (Some "-5") (-5)) as (H3 & _);
    [reflexivity|vm_compute; reflexivity|].
  rewrite H1, H2, H3. vm_compute. repeat split.
Defined.

Lemma dated_request_accepted_once_witness :
  code (submit
          (serve accepted_state
             [(T0 + 1000, GetTaskStatus "t1"); (T0 + 700000, PruneTimer)])
          (T0 + 700001) (request "t2" "n1" T0)).1
  <> 201.
Proof.
  apply (dated_request_accepted_once (H := platform) agentKeys manifest
           empty_state T0 (request "t1" "n1" T0) T0
           [(T0 + 1000, GetTaskStatus "t1"); (T0 + 700000, PruneTimer)]
           (T0 + 700001) (request "t2" "n1" T0)).
  - vm_compute. reflexivity.
  - vm_compute. reflexivity.
  - repeat split; vm_compute; discriminate.
  - vm_compute. discriminate.
  - reflexivity.
  - reflexivity.
Defined.

Lemma undated_request_accepted_twice_witness :
  code (submit empty_state T0 (undated "t1" "n1")).1 = 201
  /\ code (submit
             (serve (submit empty_state T0 (undated "t1" "n1")).2
                [(T0 + 600001, PruneTimer)])
             (T0 + 600002) (undated "t1" "n1")).1
     = 201.
Proof.
  split; [vm_compute; reflexivity|].
  apply (undated_request_accepted_twice (H := platform) agentKeys manifest
           empty_state T0 (undated "t1" "n1") (T0 + 600001) (T0 + 600002)).
  - vm_compute. reflexivity.
  - vm_compute. reflexivity.
  - vm_compute. reflexivity.
  - split; [reflexivity|]. vm_compute. lia.
Defined.


Lemma restart_after_tick_witness :
  let st2 :=
    restart (persistNonces busy_state (T0 + 20)).1
      (persistNonces busy_state (T0 + 20)).2 in
  error_kind (submit busy_state (T0 + 21) (request "t10" "n10" (T0 + 21))).1
  = Some "rate_limited"
  /\ error_kind (submit st2 (T0 + 21) (request "t10" "n10" (T0 + 21))).1
     <> Some "rate_limited"
  /\ seenNonces st2 !! "n0" = Some T0.
Proof.
  destruct (restart_after_tick (H := platform) manifest busy_state (T0 + 20))
    as (_ & Hkeep & _ & Hlim & _).
  cbv zeta. split; [vm_compute; reflexivity|]. split.
  - apply Hlim.
  - apply Hkeep; [vm_compute; reflexivity|vm_compute; discriminate].
Defined.

Lemma sendTask_accepted_witness :
  exists b,
    sendTask (H := platform) requesterKeys "t9" "n9" T0 "research.web"
      "look" no_opts = Some b
    /\ (submit empty_state (T0 + 1) b).1
       = reply 201 (BAccepted "accepted" "t9" "/tasks/t9/status").
Proof.
  destruct (sendTask_accepted (H := platform) manifest requesterKeys "t9"
              "n9" T0 "research.web" "look" no_opts
              [Byte.x0b; Byte.xad; Byte.xca; Byte.xfe]
              [Byte.x0b; Byte.xad; Byte.xca; Byte.xfe])
    as (b & Hs & _ & _ & Hacc).
  - vm_compute. reflexivity.
  - vm_compute. reflexivity.
  - apply sample_key_pair. discriminate.
  - exists b. split; [exact Hs|].
    vm_compute in Hs. injection Hs as <-.
    apply (Hacc empty_state (T0 + 1)); clear Hacc.
    + vm_compute. reflexivity.
    + vm_compute. lia.
    + vm_compute. reflexivity.
    + vm_compute. reflexivity.
    + vm_compute. discriminate.
    + vm_compute. set_solver.
Defined.

Lemma dropped_task_accepted_witness :
  exists w',
    (submitTask (H := platform) manifest requesterKeys (draws "aip-1.json")
       "aip-1.json" drop world0)
    = Some (Some (reply 201
                    (BAccepted "accepted" "id-aip-1.json"
                       "/tasks/id-aip-1.json/status")), w')
    /\ k_status <$> results w' !! "aip-1-tracking.json" = Some "accepted".
Proof.
  destruct (dropped_task_accepted (H := platform) manifest requesterKeys
              (draws "aip-1.json") "aip-1.json" drop world0
              [Byte.x0b; Byte.xad; Byte.xca; Byte.xfe]
              [Byte.x0b; Byte.xad; Byte.xca; Byte.xfe])
    as (sig & Hsig & _ & Hacc).
  - vm_compute. reflexivity.
  - vm_compute. reflexivity.
  - vm_compute. reflexivity.
  - apply sample_key_pair. discriminate.
  - vm_compute in Hsig. injection Hsig as <-.
    destruct Hacc as (w' & Hsub & Htr & _); try clear Hacc.
    + vm_compute. reflexivity.
    + vm_compute. lia.
    + vm_compute. reflexivity.
    + vm_compute. reflexivity.
    + vm_compute. discriminate.
    + vm_compute. set_solver.
    + exists w'. split; [exact Hsub|].
      change "aip-1-tracking.json"
        with (basename_json "aip-1.json" ++ "-tracking.json")%string.
      by rewrite Htr.
Defined.

Lemma dropped_file_posted_once_witness :
  let w1 :=
    watch_tick (H := platform) manifest requesterKeys draws two_drops
      (T0 + 2) no_network world0 in
  "aip-1.json" ∈ processed w1 /\ "aip-2.json" ∈ processed w1
  /\ server
       (watch_tick (H := platform) manifest requesterKeys draws two_drops
          (T0 + 5002) no_network w1)
     = server w1.
Proof.
  destruct (dropped_file_posted_once (H := platform) manifest requesterKeys
              two_drops draws (T0 + 2) no_network world0) as (Hin & Hagain).
  - repeat constructor; simpl; eauto.
  - intros m.
    apply (sample_signs requesterKeys
             [Byte.x0b; Byte.xad; Byte.xca; Byte.xfe]);
      [vm_compute; reflexivity|discriminate].
  - cbv zeta. split; [|split].
    + apply (Hin ("aip-1.json", Some drop));
        [apply list_elem_of_here|vm_compute; reflexivity].
    + apply (Hin ("aip-2.json", Some drop));
        [apply list_elem_of_further, list_elem_of_here
        |vm_compute; reflexivity].
    + apply (Hagain draws (T0 + 5002) no_network).
Defined.

Lemma unparsable_drop_blocks_the_bridge_witness :
  Nat.iter 3
    (watch_tick (H := platform) manifest requesterKeys draws broken_drop
       (T0 + 2) no_network) world0
  = world0.
Proof.
  destruct (unparsable_drop_blocks_the_bridge (H := platform) manifest
              requesterKeys draws broken_drop (T0 + 2) no_network world0
              "aip-0.json" [("aip-1.json", Some drop)]) as (_ & Hn).
  - vm_compute. reflexivity.
  - apply Hn.
Defined.

Lemma poll_copies_completed_witness :
  exists tr',
    results
      (pollResults (H := platform) (T0 + 9000)
         (carrier completed_state ["t1"]) tracking_world)
      !! "aip-1-tracking.json"
    = Some tr'
    /\ k_status tr' = "completed" /\ k_result tr' = finding.
Proof.
  destruct (poll_copies_completed (H := platform) agentKeys (T0 + 9000)
              (carrier completed_state ["t1"]) tracking_world)
    as (_ & _ & Hfiles).
  - apply completed_state_keyed.
  - apply completed_state_receipts.
  - apply completed_state_status.
  - destruct (Hfiles "aip-1-tracking.json" tracked)
      as (tr' & Hl & _ & _ & _ & Hpoll); [vm_compute; reflexivity|].
    exists tr'. split; [exact Hl|].
    destruct (Hpoll "t1") as [Hiff Hres];
      [reflexivity|vm_compute; discriminate|vm_compute; reflexivity|].
    destruct (loadTask completed_state "t1") as [t|] eqn:Ht;
      [|vm_compute in Ht; discriminate].
    assert (t_status t = completed /\ t_result t = finding) as [Hst Hfi].
    { vm_compute in Ht. injection Ht as <-. split; reflexivity. }
    split.
    + apply Hiff. exists t. split; [exact Ht|exact Hst].
    + destruct (Hres t Ht Hst) as [Hr _]. rewrite Hr. exact Hfi.
Defined.

Lemma dropped_task_comes_back_witness :
  exists tr,
    results
      (pollResults (H := platform) (T0 + 9000)
         (carrier (server world2) ["id-aip-1.json"]) world2)
      !! "aip-1-tracking.json"
    = Some tr
    /\ k_status tr = "completed" /\ k_result tr = finding
    /\ k_source_file tr = "aip-1.json".
Proof.
  destruct (dropped_task_comes_back (H := platform) agentKeys manifest
              requesterKeys (draws "aip-1.json") "aip-1.json" drop world0
              [Byte.x0b; Byte.xad; Byte.xca; Byte.xfe]
              [Byte.x0b; Byte.xad; Byte.xca; Byte.xfe]
              (T0 + 5000) finding JUndefined (T0 + 9000)
              (carrier (server world2) ["id-aip-1.json"]))
    as (res & w1 & Hsub & Hback).
  - vm_compute. reflexivity.
  - vm_compute. reflexivity.
  - vm_compute. reflexivity.
  - apply sample_key_pair. discriminate.
  - intros sig Hsig. vm_compute in Hsig. injection Hsig as <-. vm_compute. reflexivity.
  - vm_compute. lia.
  - vm_compute. reflexivity.
  - vm_compute. reflexivity.
  - vm_compute. discriminate.
  - vm_compute. set_solver.
  - vm_compute. reflexivity.
  - intros m.
    apply (sample_signs agentKeys [Byte.xa1; Byte.xb2; Byte.xc3; Byte.xd4]);
      [vm_compute; reflexivity|discriminate].
  - assert (w1 = world1) as ->.
    { unfold world1. rewrite Hsub. reflexivity. }
    destruct Hback as (tr & r & Hl & Hst & _ & Hsrc & Hres & _).
    + vm_compute. reflexivity.
    + exists tr. split; [exact Hl|]. split; [exact Hst|].
      split; [exact Hres|exact Hsrc].
Defined.

